(** * version_exporter: the [/probe] handler and its release scan

    A shallow embedding of [main.go]: [probeHandler], [boolToFloat],
    [findLatest] and [findReleases], together with the small parts of the
    Go libraries they call into.  The three Prometheus gauges are process
    globals, the logger and the HTTP client are effects; all of them live
    in an explicit [World] that every operation threads through a state
    monad with a panic outcome.  The semantic-version library is an
    interface ([semver.Lib]); a reference instance ([Masterminds]) is
    given at the end of the definitions and used to run the handler on
    concrete requests. *)

From Stdlib Require Import ZArith String Ascii List Bool Lia.
From Stdlib Require Import Floats.PrimFloat Numbers.Cyclic.Int63.Uint63.
From stdpp Require Import base option list gmap strings.

Local Open Scope string_scope.
Local Open Scope Z_scope.

(** ** Go error values and [github.com/pkg/errors] *)

Module errors.

(** A non-nil Go [error].  [New] is what [errors.New] and [fmt.Errorf]
    build; [withMessage] is the annotation [Wrap] puts around a cause
    (the stack trace it also records does not show in [Error]). *)
Inductive value : Type :=
| New (text : string)
| withMessage (cause : value) (msg : string).

(** The [Error() string] method. *)
Fixpoint Error (e : value) : string :=
  match e with
  | New text => text
  | withMessage cause msg => (msg ++ ": " ++ Error cause)%string
  end.

(** A Go variable of type [error]: [None] is [nil]. *)
Definition error : Type := option value.

(** [errors.Wrap(err, message)]: "If err is nil, Wrap returns nil." *)
Definition Wrap (err : error) (message : string) : error :=
  match err with
  | None => None
  | Some cause => Some (withMessage cause message)
  end.

(** [errors.Cause]: the innermost error of a chain of wraps. *)
Fixpoint Cause (e : value) : value :=
  match e with
  | New text => New text
  | withMessage cause _ => Cause cause
  end.

End errors.

Abbreviation error := errors.error.

(** ** [github.com/masterminds/semver], as an interface *)

Module semver.

(** What [main.go] uses of the library.  [NewVersion] returns
    [( *Version, error)]: [inl v] stands for [(v, nil)] and [inr e] for
    [(nil, e)].  [Compare] returns -1, 0 or 1. *)
Class Lib : Type := {
  Version : Type;
  NewVersion : string -> Version + errors.value;
  Prerelease : Version -> string;
  Compare : Version -> Version -> Z;
}.

(** [func (v *Version) GreaterThan(o *Version) bool { return v.Compare(o) > 0 }] *)
Definition GreaterThan `{Lib} (v o : Version) : bool := 0 <? Compare v o.

(** [func (v *Version) Equal(o *Version) bool { return v.Compare(o) == 0 }] *)
Definition Equal `{Lib} (v o : Version) : bool := Compare v o =? 0.

End semver.

(** ** [net/http]: what the handler reads and writes *)

Module http.

Definition StatusOK : Z := 200.
Definition StatusBadRequest : Z := 400.
Definition MethodGet : string := "GET".

(** An outbound request, as [findReleases] builds it. *)
Record Request : Type := {
  Method : string;
  URL : string;
  Header : list (string * string);
}.

(** [req.Header.Add(key, value)] *)
Definition Header_Add (req : Request) (key val : string) : Request :=
  {| Method := Method req; URL := URL req;
     Header := Header req ++ [(key, val)] |}.

(** The upstream answer: [resp.StatusCode] and [resp.Body]. *)
Record Response : Type := {
  StatusCode : Z;
  Body : string;
}.

(** What the handler wrote to its [http.ResponseWriter]: either a plain
    text body (from [http.Error]) or the exposition of a registry, kept
    as the gathered (name, value) samples, in the order of the
    exposition. *)
Inductive payload : Type :=
| Text (body : string)
| Exposition (samples : list (string * float)).

Record Written : Type := {
  Code : Z;
  Payload : payload;
}.

(** [http.Error(w, error, code)]: writes the status line and
    [fmt.Fprintln(w, error)]. *)
Definition Error (msg : string) (code : Z) : Written :=
  {| Code := code; Payload := Text (msg ++ String "010"%char "")%string |}.

End http.

(** ** [net/url]: the query of the inbound request *)

Module url.

(** [url.Values] is [map[string][]string]. *)
Abbreviation Values := (gmap string (list string)).

(** [func (v Values) Get(key string) string]: the first value of the key,
    or the empty string when the key is absent (or has no value). *)
Definition Get (v : Values) (key : string) : string :=
  match v !! key with
  | Some (first :: _) => first
  | _ => ""
  end.

End url.

(** ** [time] *)

Module time.

Definition Second : Z := 1000000000.
Definition minDuration : Z := - 2 ^ 63.
Definition maxDuration : Z := 2 ^ 63 - 1.

(** [t.Sub(u)] on two monotonic clock readings (nanoseconds): the
    difference, saturated to the range of an [int64] [Duration]. *)
Definition Sub (t u : Z) : Z :=
  Z.max minDuration (Z.min maxDuration (t - u)).

(** [float64(n)] for an [int64] [n] with [|n| < 2^63]; the seconds and
    the nanoseconds of a [Duration] are far below [2^53], where the
    conversion is exact. *)
Definition float64 (n : Z) : float :=
  if n <? 0 then PrimFloat.opp (PrimFloat.of_uint63 (Uint63.of_Z (- n)))
  else PrimFloat.of_uint63 (Uint63.of_Z n).

(** [func (d Duration) Seconds() float64]:
    [sec := d / Second; nsec := d % Second;
     return float64(sec) + float64(nsec)/1e9]
    (Go's [/] and [%] truncate towards zero). *)
Definition Seconds (d : Z) : float :=
  (float64 (Z.quot d Second) + float64 (Z.rem d Second) / 1e9)%float.

End time.

(** ** [prometheus/common/log]: the calls made to the logger *)

Module log.

Inductive Level : Type := DebugLevel | ErrorLevel.

(** The [interface{}] values the program attaches with [With]. *)
Inductive Value (V : Type) : Type :=
| Str (s : string)
| Flag (b : bool)
| Err (e : errors.value)
| Ver (v : V).
Arguments Str {V} s.
Arguments Flag {V} b.
Arguments Err {V} e.
Arguments Ver {V} v.

Record Entry (V : Type) : Type := {
  level : Level;
  fields : list (string * Value V);
  message : string;
}.
Arguments level {V} _.
Arguments fields {V} _.
Arguments message {V} _.

End log.

(** ** The release record of [main.go] *)

(** [type Release struct].  [PublishedAt] is kept as the timestamp text;
    the program never reads it. *)
Record Release : Type := {
  TagName : string;
  Draft : bool;
  Prerelease : bool;
  PublishedAt : string;
}.

(** ** The environment of one probe *)

(** Everything outside the process that one run of the handler consults.
    - [token]: the package variable read from [GITHUB_TOKEN] at start-up;
    - [parses]: whether [url.Parse] accepts a URL, which decides whether
      [http.NewRequest] returns a request or an error and a nil request;
    - [Do]: [http.DefaultClient.Do]: a response, or a transport error;
    - [Decode]: [json.NewDecoder(body).Decode(&releases)]: the slice as
      the decoder left it, and its error;
    - [now_start], [now_end]: the monotonic clock (nanoseconds) as read by
      [time.Now()] on entry and by [time.Since(start)] before rendering. *)
Record Env : Type := {
  token : string;
  parses : string -> bool;
  Do : http.Request -> http.Response + errors.value;
  Decode : string -> list Release * error;
  now_start : Z;
  now_end : Z;
}.

(** ** The program *)

Section Program.

Context {lib : semver.Lib}.
Variable env : Env.

(** The mutable state the handler touches: the three package-level
    gauges, the requests handed to [http.DefaultClient.Do] so far (oldest
    first) and the calls made to the logger (oldest first). *)
Record World : Type := {
  updateGauge : float;
  probeDurationGauge : float;
  probeErrorsGauge : float;
  sent : list http.Request;
  logged : list (log.Entry semver.Version);
}.

(** A Go call either returns, or panics (the nil dereferences below);
    both leave a world behind. *)
Inductive outcome (A : Type) : Type :=
| Returned (a : A) (w : World)
| Panicked (w : World).
Arguments Returned {A} a w.
Arguments Panicked {A} w.

Definition M (A : Type) : Type := World -> outcome A.

#[export] Instance M_ret : MRet M := fun A a w => Returned a w.

#[export] Instance M_bind : MBind M := fun A B f m w =>
  match m w with
  | Returned a w' => f a w'
  | Panicked w' => Panicked w'
  end.

Definition panic {A : Type} : M A := fun w => Panicked w.

(** The world an outcome leaves behind. *)
Definition world_of {A : Type} (o : outcome A) : World :=
  match o with
  | Returned _ w => w
  | Panicked w => w
  end.

(** *** Gauges: [Set] and [Inc] of [prometheus.Gauge] *)

Definition updateGauge_Set (v : float) : M unit := fun w =>
  Returned tt
    {| updateGauge := v;
       probeDurationGauge := probeDurationGauge w;
       probeErrorsGauge := probeErrorsGauge w;
       sent := sent w; logged := logged w |}.

Definition probeDurationGauge_Set (v : float) : M unit := fun w =>
  Returned tt
    {| updateGauge := updateGauge w;
       probeDurationGauge := v;
       probeErrorsGauge := probeErrorsGauge w;
       sent := sent w; logged := logged w |}.

Definition probeErrorsGauge_Inc : M unit := fun w =>
  Returned tt
    {| updateGauge := updateGauge w;
       probeDurationGauge := probeDurationGauge w;
       probeErrorsGauge := (probeErrorsGauge w + 1)%float;
       sent := sent w; logged := logged w |}.

(** *** Logging *)

Definition log_emit (e : log.Entry semver.Version) : M unit := fun w =>
  Returned tt
    {| updateGauge := updateGauge w;
       probeDurationGauge := probeDurationGauge w;
       probeErrorsGauge := probeErrorsGauge w;
       sent := sent w; logged := logged w ++ [e] |}.

(** *** The HTTP client *)

(** [http.NewRequest(method, url, nil)]; its error is dropped by the
    caller, so only the request pointer is kept: [None] is nil. *)
Definition http_NewRequest (method url : string) : option http.Request :=
  if parses env url
  then Some {| http.Method := method; http.URL := url; http.Header := [] |}
  else None.

(** [req.Header.Add(key, value)] through a pointer: panics on nil. *)
Definition req_Header_Add (req : option http.Request) (key val : string)
  : M (option http.Request) :=
  match req with
  | None => panic
  | Some r => mret (Some (http.Header_Add r key val))
  end.

(** [http.DefaultClient.Do(req)]: panics on a nil request; otherwise the
    request goes out and the environment answers. *)
Definition http_DefaultClient_Do (req : option http.Request)
  : M (http.Response + errors.value) :=
  match req with
  | None => panic
  | Some r => fun w =>
      Returned (Do env r)
        {| updateGauge := updateGauge w;
           probeDurationGauge := probeDurationGauge w;
           probeErrorsGauge := probeErrorsGauge w;
           sent := sent w ++ [r]; logged := logged w |}
  end.

(** *** [findReleases] *)

Definition findReleases (repo : string) : M (list Release * error) :=
  let releases : list Release := [] in
  let req :=
    http_NewRequest http.MethodGet
      ("https://api.github.com/repos/" ++ repo ++ "/releases")%string in
  req ← (if String.eqb (token env) "" then mret req
         else req_Header_Add req "Authorization" ("token " ++ token env)%string);
  answer ← http_DefaultClient_Do req;
  match answer with
  | inr cause =>
      mret (releases, errors.Wrap (Some cause) "failed to get repository releases")
  | inl resp =>
      let err : error := None in
      if negb (http.StatusCode resp =? http.StatusOK)
      then mret (releases, errors.Wrap err "github responded a non-200 status code")
      else
        let '(releases, err) := Decode env (http.Body resp) in
        match err with
        | Some _ => mret (releases, errors.Wrap err "failed to parse the response body")
        | None => mret (releases, None)
        end
  end.

(** *** [findLatest] *)

(** The [for _, release := range releases] loop of [findLatest]. *)
Fixpoint findLatest_range (repo : string) (releases : list Release)
  : M (option semver.Version * error) :=
  match releases with
  | [] => mret (None, None)
  | release :: rest =>
      if Draft release || Prerelease release
      then findLatest_range repo rest
      else
        match semver.NewVersion (TagName release) with
        | inr err =>
            log_emit
              {| log.level := log.ErrorLevel;
                 log.fields := [("error", log.Err err); ("repo", log.Str repo);
                                ("tag", log.Str (TagName release))];
                 log.message := ("failed to parse " ++ TagName release)%string |};;
            findLatest_range repo rest
        | inl version =>
            if negb (String.eqb (semver.Prerelease version) "")
            then findLatest_range repo rest
            else mret (Some version, None)
        end
  end.

Definition findLatest (repo : string) : M (option semver.Version * error) :=
  '(releases, err) ← findReleases repo;
  match err with
  | Some _ => mret (None, err)
  | None => findLatest_range repo releases
  end.

(** *** [boolToFloat] and [probeHandler] *)

Definition boolToFloat (b : bool) : float :=
  if b then 1.0%float else 0.0%float.

(** [promhttp.HandlerFor(registry, ...).ServeHTTP(w, r)] for the registry
    the handler fills: the current values of the three gauges, answered
    with status 200.  The registry gathers its metric families sorted by
    name, whatever the order of registration. *)
Definition promhttp_ServeHTTP : M http.Written := fun w =>
  Returned
    {| http.Code := http.StatusOK;
       http.Payload := http.Exposition
         [("probe_duration_seconds", probeDurationGauge w);
          ("probe_error_count", probeErrorsGauge w);
          ("up_to_date", updateGauge w)] |}
    w.

(** The handler, on the parsed query of the inbound request
    ([r.URL.Query()]); it returns what it wrote to [w]. *)
Definition probeHandler (params : url.Values) : M http.Written :=
  let repo := url.Get params "repo" in
  let tag := url.Get params "tag" in
  let start := now_start env in
  if String.eqb repo "" then
    probeErrorsGauge_Inc;;
    mret (http.Error "repo parameter is missing" http.StatusBadRequest)
  else if String.eqb tag "" then
    probeErrorsGauge_Inc;;
    mret (http.Error "tag parameter is missing" http.StatusBadRequest)
  else
    match semver.NewVersion tag with
    | inr err =>
        probeErrorsGauge_Inc;;
        mret (http.Error (errors.Error err) http.StatusBadRequest)
    | inl currentVersion =>
        '(version, err) ← findLatest repo;
        match err with
        | Some e =>
            probeErrorsGauge_Inc;;
            mret (http.Error (errors.Error e) http.StatusBadRequest)
        | None =>
            match version with
            | None => updateGauge_Set 1
            | Some version =>
                log_emit
                  {| log.level := log.DebugLevel;
                     log.fields :=
                       [("repo", log.Str repo);
                        ("current", log.Ver currentVersion);
                        ("latest", log.Ver version);
                        ("up_to_date", log.Flag (semver.Equal version currentVersion))];
                     log.message := "reporting" |};;
                updateGauge_Set
                  (boolToFloat (negb (semver.GreaterThan version currentVersion)))
            end;;
            probeDurationGauge_Set (time.Seconds (time.Sub (now_end env) start));;
            promhttp_ServeHTTP
        end
    end.

End Program.

Arguments Returned {lib A} a w.
Arguments Panicked {lib A} w.

(** ** A reference instance of the semantic-version interface

    The grammar and the ordering of [github.com/masterminds/semver]
    (version 1): an optional [v], one to three dot-separated numbers, an
    optional [-prerelease] and an optional [+metadata], both made of
    dot-separated identifiers over [0-9A-Za-z-]; the ordering is the one
    the library computes. *)

Module Masterminds.

Record Version : Type := {
  major : Z;
  minor : Z;
  patch : Z;
  pre : string;
  metadata : string;
  original : string;
}.

Definition ErrInvalidSemVer : errors.value := errors.New "Invalid Semantic Version".

Definition isDigit (c : ascii) : bool :=
  let n := nat_of_ascii c in (48 <=? n)%nat && (n <=? 57)%nat.

Definition isIdentChar (c : ascii) : bool :=
  let n := nat_of_ascii c in
  isDigit c || ((65 <=? n)%nat && (n <=? 90)%nat)
  || ((97 <=? n)%nat && (n <=? 122)%nat) || (n =? 45)%nat.

(** The longest prefix whose characters satisfy [p], and the rest. *)
Fixpoint span (p : ascii -> bool) (s : string) : string * string :=
  match s with
  | EmptyString => (EmptyString, EmptyString)
  | String c r =>
      if p c then let '(a, b) := span p r in (String c a, b)
      else (EmptyString, s)
  end.

Fixpoint allChars (p : ascii -> bool) (s : string) : bool :=
  match s with
  | EmptyString => true
  | String c r => p c && allChars p r
  end.

(** [strings.Split(s, sep)] for a one-character separator. *)
Fixpoint splitOn (sep : ascii) (s : string) : list string :=
  match s with
  | EmptyString => [EmptyString]
  | String c r =>
      if Ascii.eqb c sep then EmptyString :: splitOn sep r
      else match splitOn sep r with
           | h :: t => String c h :: t
           | [] => [String c EmptyString]
           end
  end.

(** [[0-9A-Za-z\-]+(\.[0-9A-Za-z\-]+)*] *)
Definition identifiers (s : string) : bool :=
  forallb (fun part => negb (String.eqb part "") && allChars isIdentChar part)
    (splitOn "." s).

(** The value of a string of decimal digits. *)
Fixpoint digitsValue (acc : Z) (s : string) : Z :=
  match s with
  | EmptyString => acc
  | String c r => digitsValue (10 * acc + (Z.of_nat (nat_of_ascii c) - 48)) r
  end.

(** [strconv.ParseInt(digits, 10, 64)] on a string of digits, with the
    error wrapped as [NewVersion] does. *)
Definition segment (digits : string) : Z + errors.value :=
  let n := digitsValue 0 digits in
  if n <=? 2 ^ 63 - 1 then inl n
  else inr (errors.New
    ("Error parsing version segment: strconv.ParseInt: parsing "
     ++ String "034" (digits ++ String "034" ": value out of range"))%string).

(** An optional [(\.[0-9]+)] group at the head of [s]: [None] when a dot
    is there without digits, so that no match exists. *)
Definition dotted (s : string) : option (option string * string) :=
  match s with
  | String "."%char r =>
      let '(d, r') := span isDigit r in
      if String.eqb d "" then None else Some (Some d, r')
  | _ => Some (None, s)
  end.

(** The optional prerelease and metadata groups, up to the end of the
    string: the prerelease and the metadata matched, if any match. *)
Definition suffix (s : string) : option (string * string) :=
  match s with
  | EmptyString => Some ("", "")
  | String "-"%char r =>
      let '(p, r') := span (fun c => negb (Ascii.eqb c "+")) r in
      if identifiers p then
        match r' with
        | EmptyString => Some (p, "")
        | String _ m => if identifiers m then Some (p, m) else None
        end
      else None
  | String "+"%char m => if identifiers m then Some ("", m) else None
  | _ => None
  end.

Definition optSegment (d : option string) : Z + errors.value :=
  match d with
  | Some digits => segment digits
  | None => inl 0
  end.

Definition NewVersion (v : string) : Version + errors.value :=
  let s := match v with String "v"%char r => r | _ => v end in
  let '(d1, r1) := span isDigit s in
  if String.eqb d1 "" then inr ErrInvalidSemVer else
  match dotted r1 with
  | None => inr ErrInvalidSemVer
  | Some (d2, r2) =>
  match dotted r2 with
  | None => inr ErrInvalidSemVer
  | Some (d3, r3) =>
  match suffix r3 with
  | None => inr ErrInvalidSemVer
  | Some (p, m) =>
  match segment d1 with
  | inr e => inr e
  | inl ma =>
  match optSegment d2 with
  | inr e => inr e
  | inl mi =>
  match optSegment d3 with
  | inr e => inr e
  | inl pa =>
      inl {| major := ma; minor := mi; patch := pa;
             pre := p; metadata := m; original := v |}
  end end end end end end.

Definition Prerelease (v : Version) : string := pre v.

Definition compareSegment (v o : Z) : Z :=
  if v <? o then -1 else if o <? v then 1 else 0.

(** [strconv.ParseUint(s, 10, 64)] on a prerelease identifier: digits
    only, in range. *)
Definition parseUint (s : string) : option Z :=
  if String.eqb s "" || negb (allChars isDigit s) then None
  else
    let n := digitsValue 0 s in
    if n <=? 2 ^ 64 - 1 then Some n else None.

(** [comparePrePart]: equal strings first, then the empty placeholder,
    then numbers below words; two numbers by value and two words by
    their bytes, and in both cases -1 unless the first is greater. *)
Definition comparePrePart (s o : string) : Z :=
  if String.eqb s o then 0
  else if String.eqb s "" then -1
  else if String.eqb o "" then 1
  else
    match parseUint o, parseUint s with
    | None, None => if String.ltb o s then 1 else -1
    | None, Some _ => -1
    | Some _, None => 1
    | Some oi, Some si => if oi <? si then 1 else -1
    end.

(** The loop of [comparePrerelease] once the parts of the first version
    are used up: each further part of the other meets the placeholder. *)
Fixpoint compareNothing (oparts : list string) : Z :=
  match oparts with
  | [] => 0
  | o :: or =>
      let d := comparePrePart "" o in
      if d =? 0 then compareNothing or else d
  end.

(** The loop of [comparePrerelease], part by part. *)
Fixpoint compareParts (sparts oparts : list string) : Z :=
  match sparts with
  | [] => compareNothing oparts
  | s :: sr =>
      match oparts with
      | [] =>
          let d := comparePrePart s "" in
          if d =? 0 then compareParts sr [] else d
      | o :: or =>
          let d := comparePrePart s o in
          if d =? 0 then compareParts sr or else d
      end
  end.

Definition comparePrerelease (v o : string) : Z :=
  compareParts (splitOn "." v) (splitOn "." o).

Definition Compare (v o : Version) : Z :=
  let d := compareSegment (major v) (major o) in
  if negb (d =? 0) then d else
  let d := compareSegment (minor v) (minor o) in
  if negb (d =? 0) then d else
  let d := compareSegment (patch v) (patch o) in
  if negb (d =? 0) then d else
  let ps := pre v in
  let po := Prerelease o in
  if String.eqb ps "" && String.eqb po "" then 0
  else if String.eqb ps "" then 1
  else if String.eqb po "" then -1
  else comparePrerelease ps po.

#[global] Instance lib : semver.Lib := {|
  semver.Version := Version;
  semver.NewVersion := NewVersion;
  semver.Prerelease := Prerelease;
  semver.Compare := Compare;
|}.

End Masterminds.

(** ** Reading the scan: which release the loop returns *)

Section Scan.

Context {lib : semver.Lib}.

(** One iteration of the loop of [findLatest] on [release], effects
    aside: [Some version] when it reaches [return version, nil], [None]
    when it reaches one of the three [continue]s. *)
Definition iteration (release : Release) : option semver.Version :=
  if Draft release || Prerelease release then None
  else
    match semver.NewVersion (TagName release) with
    | inr _ => None
    | inl version =>
        if negb (String.eqb (semver.Prerelease version) "") then None
        else Some version
    end.

(** The iteration (counted from 0) at which the loop returns, with the
    version it returns there. *)
Fixpoint returns_at (releases : list Release) : option (nat * semver.Version) :=
  match releases with
  | [] => None
  | release :: rest =>
      match iteration release with
      | Some version => Some (0%nat, version)
      | None =>
          match returns_at rest with
          | Some (i, version) => Some (S i, version)
          | None => None
          end
      end
  end.

(** The glossary's stable release, in the spec's words: not marked draft
    or prerelease upstream, with a tag that is a semantic version without
    a prerelease component. *)
Definition stable (r : Release) : bool :=
  negb (Draft r) && negb (Prerelease r) &&
  match semver.NewVersion (TagName r) with
  | inl v => String.eqb (semver.Prerelease v) ""
  | inr _ => false
  end.

(** The entry [findLatest] logs for a release whose tag does not parse. *)
Definition parseFailure (repo : string) (release : Release) (err : errors.value)
  : log.Entry semver.Version :=
  {| log.level := log.ErrorLevel;
     log.fields := [("error", log.Err err); ("repo", log.Str repo);
                    ("tag", log.Str (TagName release))];
     log.message := ("failed to parse " ++ TagName release)%string |}.

(** Two worlds with the same three gauges. *)
Definition same_gauges (w w' : World) : Prop :=
  updateGauge w' = updateGauge w /\
  probeDurationGauge w' = probeDurationGauge w /\
  probeErrorsGauge w' = probeErrorsGauge w.

End Scan.

(** [strings.Contains(s, substr)] *)
Fixpoint contains (s substr : string) : bool :=
  String.prefix substr s ||
  match s with
  | EmptyString => false
  | String _ rest => contains rest substr
  end.

(** The text of a written body, when it is one. *)
Definition body_text (written : http.Written) : string :=
  match http.Payload written with
  | http.Text body => body
  | http.Exposition _ => ""
  end.

(** The value of a sample in a written exposition. *)
Definition sample (written : http.Written) (name : string) : option float :=
  match http.Payload written with
  | http.Text _ => None
  | http.Exposition samples => snd <$> List.find (fun kv => String.eqb (fst kv) name) samples
  end.

(** [fmt.Sprintf("https://api.github.com/repos/%s/releases", repo)] *)
Definition releasesURL (repo : string) : string :=
  ("https://api.github.com/repos/" ++ repo ++ "/releases")%string.

(** The request [findReleases] hands to the client for [repo], when
    [http.NewRequest] accepts its URL. *)
Definition releasesRequest (env : Env) (repo : string) : http.Request :=
  let req :=
    {| http.Method := http.MethodGet; http.URL := releasesURL repo;
       http.Header := [] |} in
  if String.eqb (token env) "" then req
  else http.Header_Add req "Authorization" ("token " ++ token env)%string.

(** The world after one more request went out. *)
Definition after_send {lib : semver.Lib} (w : World) (r : http.Request) : World :=
  {| updateGauge := updateGauge w;
     probeDurationGauge := probeDurationGauge w;
     probeErrorsGauge := probeErrorsGauge w;
     sent := sent w ++ [r]; logged := logged w |}.

(** The world after one more call to the logger. *)
Definition after_log {lib : semver.Lib} (w : World) (e : log.Entry semver.Version)
  : World :=
  {| updateGauge := updateGauge w;
     probeDurationGauge := probeDurationGauge w;
     probeErrorsGauge := probeErrorsGauge w;
     sent := sent w; logged := logged w ++ [e] |}.

(** What the handler does once [findLatest] has returned. *)
Definition report {lib : semver.Lib} (env : Env) (repo : string)
    (currentVersion : semver.Version)
    (found : option semver.Version * error) : M http.Written :=
  match snd found with
  | Some e =>
      probeErrorsGauge_Inc;;
      mret (http.Error (errors.Error e) http.StatusBadRequest)
  | None =>
      match fst found with
      | None => updateGauge_Set 1
      | Some version =>
          log_emit
            {| log.level := log.DebugLevel;
               log.fields :=
                 [("repo", log.Str repo);
                  ("current", log.Ver currentVersion);
                  ("latest", log.Ver version);
                  ("up_to_date", log.Flag (semver.Equal version currentVersion))];
               log.message := "reporting" |};;
          updateGauge_Set
            (boolToFloat (negb (semver.GreaterThan version currentVersion)))
      end;;
      probeDurationGauge_Set
        (time.Seconds (time.Sub (now_end env) (now_start env)));;
      promhttp_ServeHTTP
  end.

(** The handler's test for a missing parameter: [Get] gave the empty
    string, because the key is absent from the query or because its first
    value is empty. *)
Definition missing (params : url.Values) (key : string) : Prop :=
  url.Get params key = "".

(** ** Concrete probes, run with the reference instance *)

Module Sample.

Definition release (tag : string) (draft prerelease : bool) : Release :=
  {| TagName := tag; Draft := draft; Prerelease := prerelease;
     PublishedAt := "2017-10-01T12:00:00Z" |}.

(** A fresh process: all gauges at zero, nothing sent, nothing logged. *)
Definition fresh : @World Masterminds.lib :=
  {| updateGauge := 0; probeDurationGauge := 0; probeErrorsGauge := 0;
     sent := []; logged := [] |}.

(** An upstream that answers every request with [status] and a body that
    decodes to [releases]; the probe takes two and a half seconds. *)
Definition upstream (status : Z) (releases : list Release) : Env :=
  {| token := "";
     parses := fun _ => true;
     Do := fun _ => inl {| http.StatusCode := status; http.Body := "[...]" |};
     Decode := fun _ => (releases, None);
     now_start := 1000000000;
     now_end := 3500000000 |}.

(** [/probe?repo=acme/widget&tag=...] *)
Definition query (repo tag : string) : url.Values :=
  {[ "repo" := [repo]; "tag" := [tag] ]}.

(** Oldest first: not the order upstream promises. *)
Definition ascending : list Release :=
  [release "v1.0.0" false false; release "v2.0.0" false false].

(** Newest first, as in the end-to-end scenarios of the spec. *)
Definition descending : list Release :=
  [release "v2.1.0" false false; release "v2.0.0" false false].

(** A draft ahead of a stable release. *)
Definition drafted : list Release :=
  [release "v9.0.0" true false; release "v1.0.0" false false].

(** A tag with a prerelease component that upstream did not flag. *)
Definition unflagged : list Release :=
  [release "2.0.0-beta.1" false false; release "v1.0.0" false false].

(** Only a flagged release candidate. *)
Definition candidate : list Release := [release "v3.0.0-rc1" false true].

(** A tag that is no semantic version, between a draft and a stable
    release. *)
Definition untidy : list Release :=
  [release "v9.0.0" true false; release "nightly" false false;
   release "v1.0.0" false false].

(** The version a tag without prerelease and metadata parses to. *)
Definition plain (ma mi pa : Z) (tag : string) : Masterminds.Version :=
  {| Masterminds.major := ma; Masterminds.minor := mi; Masterminds.patch := pa;
     Masterminds.pre := ""; Masterminds.metadata := "";
     Masterminds.original := tag |}.

(** The world once the release list of [acme/widget] has been asked for. *)
Definition asked (env : Env) : @World Masterminds.lib :=
  after_send fresh (releasesRequest env "acme/widget").

End Sample.


(** ** Reading a probe: what it answers and what it leaves behind *)

Section Reading.

Context {lib : semver.Lib}.

(** The entries the loop of [findLatest] hands to the logger on
    [releases], in order: one for each release it reaches that is not
    flagged and whose tag does not parse; nothing after the release it
    returns at. *)
Fixpoint scanLog (repo : string) (releases : list Release)
  : list (log.Entry semver.Version) :=
  match releases with
  | [] => []
  | release :: rest =>
      if Draft release || Prerelease release then scanLog repo rest
      else
        match semver.NewVersion (TagName release) with
        | inr err => parseFailure repo release err :: scanLog repo rest
        | inl version =>
            if negb (String.eqb (semver.Prerelease version) "")
            then scanLog repo rest
            else []
        end
  end.

(** What the loop logs for one release it does not return at: the parse
    failure of its tag, when it is not flagged and the tag does not
    parse. *)
Definition parseFailureOf (repo : string) (release : Release)
  : option (log.Entry semver.Version) :=
  if Draft release || Prerelease release then None
  else
    match semver.NewVersion (TagName release) with
    | inr err => Some (parseFailure repo release err)
    | inl _ => None
    end.

(** How many releases the loop passes before it returns: the index of
    the release it returns at, or the whole list. *)
Definition reached (releases : list Release) : nat :=
  match returns_at releases with
  | Some (i, _) => i
  | None => length releases
  end.

(** The world after more calls to the logger. *)
Definition after_logs (w : World) (es : list (log.Entry semver.Version)) : World :=
  {| updateGauge := updateGauge w;
     probeDurationGauge := probeDurationGauge w;
     probeErrorsGauge := probeErrorsGauge w;
     sent := sent w; logged := logged w ++ es |}.

(** The world after [probeErrorsGauge.Inc()]. *)
Definition after_error (w : World) : World :=
  {| updateGauge := updateGauge w;
     probeDurationGauge := probeDurationGauge w;
     probeErrorsGauge := (probeErrorsGauge w + 1)%float;
     sent := sent w; logged := logged w |}.

(** What a call returned, if it returned. *)
Definition value_of {A : Type} (o : outcome A) : option A :=
  match o with
  | Returned a _ => Some a
  | Panicked _ => None
  end.

(** What [findReleases] returns for [repo] once its request went out:
    the three [return]s after the call to [Do]. *)
Definition answer (env : Env) (repo : string) : list Release * error :=
  match Do env (releasesRequest env repo) with
  | inr cause =>
      ([], Some (errors.withMessage cause "failed to get repository releases"))
  | inl resp =>
      if http.StatusCode resp =? http.StatusOK
      then (fst (Decode env (http.Body resp)),
            errors.Wrap (snd (Decode env (http.Body resp)))
              "failed to parse the response body")
      else ([], None)
  end.

(** Whether the handler gets as far as sending its request: both
    parameters non-empty, the tag a semantic version, and the URL of the
    release list one that [http.NewRequest] accepts. *)
Definition fetches (env : Env) (params : url.Values) : bool :=
  negb (String.eqb (url.Get params "repo") "") &&
  negb (String.eqb (url.Get params "tag") "") &&
  match semver.NewVersion (url.Get params "tag") with
  | inl _ => parses env (releasesURL (url.Get params "repo"))
  | inr _ => false
  end.

(** The entry the handler logs before it sets [up_to_date]. *)
Definition reporting (repo : string) (currentVersion version : semver.Version)
  : log.Entry semver.Version :=
  {| log.level := log.DebugLevel;
     log.fields :=
       [("repo", log.Str repo);
        ("current", log.Ver currentVersion);
        ("latest", log.Ver version);
        ("up_to_date", log.Flag (semver.Equal version currentVersion))];
     log.message := "reporting" |}.

(** The answer [promhttp] writes for the registry of the handler in [w]. *)
Definition exposition (w : World) : http.Written :=
  {| http.Code := http.StatusOK;
     http.Payload := http.Exposition
       [("probe_duration_seconds", probeDurationGauge w);
        ("probe_error_count", probeErrorsGauge w);
        ("up_to_date", updateGauge w)] |}.

(** The world a probe that renders the registry leaves behind [w]: the
    two gauges it sets, and the rest as it was. *)
Definition rendered_world (env : Env) (w : World) (up : float) : World :=
  {| updateGauge := up;
     probeDurationGauge := time.Seconds (time.Sub (now_end env) (now_start env));
     probeErrorsGauge := probeErrorsGauge w;
     sent := sent w; logged := logged w |}.

(** The handler with its effects written out: the outcome of
    [probeHandler] on [params] in [w], path by path. *)
Definition probe_outcome (env : Env) (params : url.Values) (w : World)
  : outcome http.Written :=
  let repo := url.Get params "repo" in
  let tag := url.Get params "tag" in
  if String.eqb repo "" then
    Returned (http.Error "repo parameter is missing" http.StatusBadRequest)
      (after_error w)
  else if String.eqb tag "" then
    Returned (http.Error "tag parameter is missing" http.StatusBadRequest)
      (after_error w)
  else
    match semver.NewVersion tag with
    | inr err =>
        Returned (http.Error (errors.Error err) http.StatusBadRequest)
          (after_error w)
    | inl currentVersion =>
        if parses env (releasesURL repo) then
          let w1 := after_send w (releasesRequest env repo) in
          match snd (answer env repo) with
          | Some e =>
              Returned (http.Error (errors.Error e) http.StatusBadRequest)
                (after_error w1)
          | None =>
              let w2 := after_logs w1 (scanLog repo (fst (answer env repo))) in
              let w3 :=
                match snd <$> returns_at (fst (answer env repo)) with
                | None => rendered_world env w2 1
                | Some version =>
                    rendered_world env
                      (after_log w2 (reporting repo currentVersion version))
                      (boolToFloat
                         (negb (semver.GreaterThan version currentVersion)))
                end in
              Returned (exposition w3) w3
          end
        else Panicked w
    end.

End Reading.

(** ** Upstreams that fail *)

Module Faults.

(** The connection cannot be made. *)
Definition unreachable : Env :=
  {| token := "";
     parses := fun _ => true;
     Do := fun _ => inr (errors.New "dial tcp: i/o timeout");
     Decode := fun _ => ([], None);
     now_start := 1000000000;
     now_end := 3500000000 |}.

(** The answer has status 200 and a body cut short, after the decoder
    had already filled in one release. *)
Definition garbled : Env :=
  {| token := "";
     parses := fun _ => true;
     Do := fun _ => inl {| http.StatusCode := 200; http.Body := "[{...}," |};
     Decode := fun _ => ([Sample.release "v9.9.9" false false],
                         Some (errors.New "unexpected EOF"));
     now_start := 1000000000;
     now_end := 3500000000 |}.

(** [http.NewRequest] accepts no URL. *)
Definition rejecting (token : string) : Env :=
  {| token := token;
     parses := fun _ => false;
     Do := fun _ => inl {| http.StatusCode := 200; http.Body := "[]" |};
     Decode := fun _ => ([], None);
     now_start := 1000000000;
     now_end := 3500000000 |}.

(** A process started with [GITHUB_TOKEN=s3cret]. *)
Definition authorised (releases : list Release) : Env :=
  {| token := "s3cret";
     parses := fun _ => true;
     Do := fun _ => inl {| http.StatusCode := 200; http.Body := "[...]" |};
     Decode := fun _ => (releases, None);
     now_start := 1000000000;
     now_end := 3500000000 |}.

(** A process that has served probes before: gauges, requests and log
    hold what those left; no probe has failed yet. *)
Definition used : @World Masterminds.lib :=
  {| updateGauge := 0;
     probeDurationGauge := 7.5;
     probeErrorsGauge := 0;
     sent := [releasesRequest unreachable "other/repo"];
     logged :=
       [parseFailure "other/repo" (Sample.release "latest" false false)
          Masterminds.ErrInvalidSemVer] |}.

End Faults.

(** * Properties *)

(** ** The monad and the scan *)

Ltac run := unfold mbind, M_bind, mret, M_ret, panic in *; simpl in *.

Section ScanFacts.

Context {lib : semver.Lib}.

Lemma same_gauges_refl (w : World) : same_gauges w w.
Proof. repeat split. Qed.

Lemma same_gauges_trans (w1 w2 w3 : World) :
  same_gauges w1 w2 -> same_gauges w2 w3 -> same_gauges w1 w3.
Proof.
  intros (a & b & c) (a' & b' & c'). repeat split; congruence.
Qed.

Lemma log_emit_after (e : log.Entry semver.Version) (w : World) :
  log_emit e w = Returned tt (after_log w e).
Proof. reflexivity. Qed.

(** The three ways an iteration continues, and the one way it returns. *)
Lemma range_flagged repo r rest w :
  Draft r || Prerelease r = true ->
  findLatest_range repo (r :: rest) w = findLatest_range repo rest w.
Proof. intros F. simpl. rewrite F. reflexivity. Qed.

Lemma range_unparsed repo r rest w err :
  Draft r || Prerelease r = false ->
  semver.NewVersion (TagName r) = inr err ->
  findLatest_range repo (r :: rest) w =
  findLatest_range repo rest (after_log w (parseFailure repo r err)).
Proof. intros F P. simpl. rewrite F, P. reflexivity. Qed.

Lemma range_semver_prerelease repo r rest w v :
  semver.NewVersion (TagName r) = inl v ->
  semver.Prerelease v <> "" ->
  findLatest_range repo (r :: rest) w = findLatest_range repo rest w.
Proof.
  intros P N. simpl. destruct (Draft r || Prerelease r); [reflexivity|].
  rewrite P. apply String.eqb_neq in N. rewrite N. reflexivity.
Qed.

Lemma iteration_flagged r :
  Draft r || Prerelease r = true -> iteration r = None.
Proof. intros F. unfold iteration. rewrite F. reflexivity. Qed.

Lemma iteration_unparsed r err :
  semver.NewVersion (TagName r) = inr err -> iteration r = None.
Proof.
  intros P. unfold iteration. rewrite P. destruct (_ || _); reflexivity.
Qed.

Lemma iteration_semver_prerelease r v :
  semver.NewVersion (TagName r) = inl v -> semver.Prerelease v <> "" ->
  iteration r = None.
Proof.
  intros P N. unfold iteration. rewrite P. apply String.eqb_neq in N.
  rewrite N. destruct (_ || _); reflexivity.
Qed.

(** An iteration returns exactly on the glossary's stable releases. *)
Lemma iteration_stable r :
  stable r = true <->
  exists v, iteration r = Some v /\ semver.NewVersion (TagName r) = inl v.
Proof.
  unfold stable, iteration. destruct (Draft r), (Prerelease r); simpl;
    try (split; [discriminate | intros (v & E & _); discriminate]).
  destruct (semver.NewVersion (TagName r)) as [v|e].
  - destruct (String.eqb (semver.Prerelease v) ""); simpl.
    + split; eauto.
    + split; [discriminate | intros (v' & E & _); discriminate].
  - split; [discriminate | intros (v' & E & _); discriminate].
Qed.

Lemma iteration_not_stable r : stable r = false <-> iteration r = None.
Proof.
  split.
  - intros S. destruct (iteration r) as [v|] eqn:E; [|reflexivity].
    assert (stable r = true) as T.
    { apply iteration_stable. exists v. split; [assumption|].
      unfold iteration in E. destruct (_ || _); [discriminate|].
      destruct (semver.NewVersion (TagName r)) as [v'|]; [|discriminate].
      destruct (negb _); [discriminate|]. congruence. }
    congruence.
  - intros E. destruct (stable r) eqn:S; [|reflexivity].
    apply iteration_stable in S as (v & E' & _). congruence.
Qed.

(** The loop always returns, with a nil error and the version of the
    iteration [returns_at] names; it touches neither the gauges nor the
    network. *)
Lemma range_returns repo rs w :
  exists w',
    findLatest_range repo rs w = Returned (snd <$> returns_at rs, None) w' /\
    same_gauges w w' /\ sent w' = sent w /\
    exists more, logged w' = (logged w ++ more)%list.
Proof.
  revert w. induction rs as [|r rest IH]; intros w.
  - exists w. repeat split. exists []. symmetry. apply app_nil_r.
  - assert (forall w0 : World, iteration r = None ->
      exists w', findLatest_range repo rest w0 =
                 Returned (snd <$> returns_at (r :: rest), None) w' /\
                 same_gauges w0 w' /\ sent w' = sent w0 /\
                 exists more, logged w' = (logged w0 ++ more)%list) as K.
    { intros w0 E. destruct (IH w0) as (w' & R & G & S). exists w'.
      simpl. rewrite E, R.
      destruct (returns_at rest) as [[i v]|]; repeat split; try apply G; apply S. }
    destruct (Draft r || Prerelease r) eqn:F.
    + rewrite (range_flagged _ _ _ _ F). apply K, iteration_flagged, F.
    + destruct (semver.NewVersion (TagName r)) as [v|err] eqn:P.
      * destruct (String.eqb (semver.Prerelease v) "") eqn:N.
        -- exists w. simpl. unfold iteration. rewrite F, P, N.
           repeat split. exists []. symmetry. apply app_nil_r.
        -- apply String.eqb_neq in N.
           rewrite (range_semver_prerelease _ _ _ _ _ P N).
           apply K. eapply iteration_semver_prerelease; eassumption.
      * rewrite (range_unparsed _ _ _ _ _ F P).
        destruct (K (after_log w (parseFailure repo r err)))
          as (w' & R & G & S & more & L).
        { eapply iteration_unparsed; eassumption. }
        exists w'. split; [exact R|]. split; [|split; [exact S|]].
        -- destruct G as (a & b & c). repeat split; assumption.
        -- exists (parseFailure repo r err :: more). rewrite L. simpl.
           rewrite <- app_assoc. reflexivity.
Qed.

(** [returns_at] names a stable release, the first one of the list. *)
Lemma returns_at_first (rs : list Release) i v :
  returns_at rs = Some (i, v) ->
  (exists r, rs !! i = Some r /\ iteration r = Some v) /\
  (forall j r', (j < i)%nat -> rs !! j = Some r' -> iteration r' = None).
Proof.
  revert i v. induction rs as [|r rest IH]; intros i v; simpl; [discriminate|].
  destruct (iteration r) as [v0|] eqn:E.
  - intros [= <- <-]. split; [exists r; split; [reflexivity|exact E]|].
    intros j r' L. lia.
  - destruct (returns_at rest) as [[i0 v0]|]; [|discriminate].
    intros [= <- <-]. destruct (IH i0 v0 eq_refl) as ((r0 & L0 & E0) & B).
    split; [exists r0; split; assumption|].
    intros [|j] r' L; simpl.
    + intros [= <-]. exact E.
    + apply B. lia.
Qed.

Lemma returns_at_none (rs : list Release) :
  (forall r, r ∈ rs -> iteration r = None) -> returns_at rs = None.
Proof.
  induction rs as [|r rest IH]; intros A; simpl; [reflexivity|].
  rewrite (A r) by constructor. rewrite IH; [reflexivity|].
  intros r' I. apply A. constructor. exact I.
Qed.

(** A release whose iteration continues is never the one returned. *)
Lemma returns_at_skips (rs : list Release) i r :
  rs !! i = Some r -> iteration r = None ->
  forall v, returns_at rs <> Some (i, v).
Proof.
  intros L E v R. apply returns_at_first in R as ((r' & L' & E') & _).
  congruence.
Qed.

(** A release the loop passes without a trace can be taken out of the
    list: the scan has the same result and the same effects. *)
Lemma range_delete repo (rs : list Release) i r :
  rs !! i = Some r ->
  (forall rest w, findLatest_range repo (r :: rest) w = findLatest_range repo rest w) ->
  forall w, findLatest_range repo rs w = findLatest_range repo (delete i rs) w.
Proof.
  intros L Q. revert i L. induction rs as [|r0 rest IH]; intros i L w.
  - discriminate.
  - destruct i as [|i].
    + injection L as ->. apply Q.
    + change (delete (S i) (r0 :: rest)) with (r0 :: delete i rest).
      simpl in L. specialize (IH i L). simpl.
      destruct (Draft r0 || Prerelease r0); [apply IH|].
      destruct (semver.NewVersion (TagName r0)) as [v|err].
      * destruct (negb _); [apply IH | reflexivity].
      * run. apply IH.
Qed.

(** The scan of a list in two parts. *)
Lemma range_app repo (front back : list Release) w :
  returns_at front = None ->
  exists w',
    findLatest_range repo front w = Returned (None, None) w' /\
    findLatest_range repo (front ++ back) w = findLatest_range repo back w'.
Proof.
  revert w. induction front as [|r rest IH]; intros w N.
  - exists w. split; reflexivity.
  - simpl in N. destruct (iteration r) as [v|] eqn:E; [discriminate|].
    assert (returns_at rest = None) as N'.
    { destruct (returns_at rest) as [[i v]|]; [discriminate|reflexivity]. }
    unfold iteration in E. simpl.
    destruct (Draft r || Prerelease r); [apply IH, N'|].
    destruct (semver.NewVersion (TagName r)) as [v|err].
    + destruct (negb _); [apply IH, N' | discriminate].
    + run. apply IH, N'.
Qed.

End ScanFacts.

(** ** The fetch *)

Section FetchFacts.

Context {lib : semver.Lib}.
Variable env : Env.

(** When [http.NewRequest] rejects the URL the program is left with a nil
    request, and dereferencing it panics before anything is sent. *)
Lemma findReleases_nil_request repo (w : World) :
  parses env (releasesURL repo) = false ->
  findReleases env repo w = Panicked w.
Proof.
  intros U. unfold findReleases, http_NewRequest. fold (releasesURL repo).
  rewrite U. run. destruct (String.eqb (token env) ""); reflexivity.
Qed.

(** Otherwise exactly one request goes out, and the answer decides. *)
Lemma findReleases_sent repo (w : World) :
  parses env (releasesURL repo) = true ->
  findReleases env repo w =
  Returned
    match Do env (releasesRequest env repo) with
    | inr cause =>
        ([], Some (errors.withMessage cause "failed to get repository releases"))
    | inl resp =>
        if http.StatusCode resp =? http.StatusOK
        then (fst (Decode env (http.Body resp)),
              errors.Wrap (snd (Decode env (http.Body resp)))
                "failed to parse the response body")
        else ([], None)
    end
    (after_send w (releasesRequest env repo)).
Proof.
  intros U. unfold findReleases, http_NewRequest, releasesRequest.
  fold (releasesURL repo). rewrite U. run.
  destruct (String.eqb (token env) ""); simpl.
  - destruct (Do env _) as [resp|cause]; [|reflexivity].
    destruct (http.StatusCode resp =? http.StatusOK); [|reflexivity]. simpl.
    destruct (Decode env (http.Body resp)) as [rs [e|]]; reflexivity.
  - destruct (Do env _) as [resp|cause]; [|reflexivity].
    destruct (http.StatusCode resp =? http.StatusOK); [|reflexivity]. simpl.
    destruct (Decode env (http.Body resp)) as [rs [e|]]; reflexivity.
Qed.

(** A non-200 answer: the error wrapped is the nil [err] of the call that
    succeeded, so the error returned is nil and the slice is empty. *)
Lemma findReleases_non200 repo (w : World) resp :
  parses env (releasesURL repo) = true ->
  Do env (releasesRequest env repo) = inl resp ->
  http.StatusCode resp <> http.StatusOK ->
  findReleases env repo w =
  Returned ([], None) (after_send w (releasesRequest env repo)).
Proof.
  intros U D S. rewrite (findReleases_sent _ _ U), D.
  apply Z.eqb_neq in S. rewrite S. reflexivity.
Qed.

(** A transport failure, by contrast, is wrapped and returned. *)
Lemma findReleases_transport_error repo (w : World) cause :
  parses env (releasesURL repo) = true ->
  Do env (releasesRequest env repo) = inr cause ->
  exists e,
    findReleases env repo w =
      Returned ([], Some e) (after_send w (releasesRequest env repo)) /\
    errors.Cause e = errors.Cause cause /\
    errors.Error e =
      ("failed to get repository releases: " ++ errors.Error cause)%string.
Proof.
  intros U D. rewrite (findReleases_sent _ _ U), D.
  eexists. split; [reflexivity|]. split; reflexivity.
Qed.

(** The fetch never touches the gauges or the log. *)
Lemma findReleases_frame repo (w : World) :
  same_gauges w (world_of (findReleases env repo w)) /\
  logged (world_of (findReleases env repo w)) = logged w.
Proof.
  destruct (parses env (releasesURL repo)) eqn:U.
  - rewrite (findReleases_sent _ _ U). simpl. repeat split.
  - rewrite (findReleases_nil_request _ _ U). simpl. repeat split.
Qed.

Lemma findLatest_unfold repo (w : World) :
  findLatest env repo w =
  match findReleases env repo w with
  | Returned (releases, Some e) w1 => Returned (None, Some e) w1
  | Returned (releases, None) w1 => findLatest_range repo releases w1
  | Panicked w1 => Panicked w1
  end.
Proof.
  unfold findLatest. run.
  destruct (findReleases env repo w) as [[rs [e|]] w1|w1]; reflexivity.
Qed.

(** After a fetch that returned [releases] and a nil error, [findLatest]
    is the scan of [releases]. *)
Lemma findLatest_fetched repo (w w1 : World) releases :
  findReleases env repo w = Returned (releases, None) w1 ->
  findLatest env repo w = findLatest_range repo releases w1.
Proof. intros F. rewrite findLatest_unfold, F. reflexivity. Qed.

Lemma findLatest_frame repo (w : World) :
  same_gauges w (world_of (findLatest env repo w)).
Proof.
  rewrite findLatest_unfold.
  pose proof (findReleases_frame repo w) as [G _].
  destruct (findReleases env repo w) as [[rs [e|]] w1|w1]; simpl in *; try exact G.
  destruct (range_returns repo rs w1) as (w' & R & G' & _). rewrite R. simpl.
  eapply same_gauges_trans; eassumption.
Qed.

(** *** The handler, by the path it takes *)

Lemma probeHandler_no_repo params (w : World) :
  url.Get params "repo" = "" ->
  probeHandler env params w =
  Returned (http.Error "repo parameter is missing" http.StatusBadRequest)
    (world_of (probeErrorsGauge_Inc w)).
Proof. intros R. unfold probeHandler. rewrite R. reflexivity. Qed.

Lemma probeHandler_no_tag params (w : World) :
  url.Get params "repo" <> "" ->
  url.Get params "tag" = "" ->
  probeHandler env params w =
  Returned (http.Error "tag parameter is missing" http.StatusBadRequest)
    (world_of (probeErrorsGauge_Inc w)).
Proof.
  intros R T. unfold probeHandler. apply String.eqb_neq in R.
  rewrite R, T. reflexivity.
Qed.

Lemma probeHandler_bad_tag params (w : World) err :
  url.Get params "repo" <> "" ->
  url.Get params "tag" <> "" ->
  semver.NewVersion (url.Get params "tag") = inr err ->
  probeHandler env params w =
  Returned (http.Error (errors.Error err) http.StatusBadRequest)
    (world_of (probeErrorsGauge_Inc w)).
Proof.
  intros R T P. unfold probeHandler. apply String.eqb_neq in R, T.
  rewrite R, T, P. reflexivity.
Qed.

Lemma probeHandler_fetches params (w : World) currentVersion :
  url.Get params "repo" <> "" ->
  url.Get params "tag" <> "" ->
  semver.NewVersion (url.Get params "tag") = inl currentVersion ->
  probeHandler env params w =
  match findLatest env (url.Get params "repo") w with
  | Returned found w1 => report env (url.Get params "repo") currentVersion found w1
  | Panicked w1 => Panicked w1
  end.
Proof.
  intros R T P. unfold probeHandler. apply String.eqb_neq in R, T.
  rewrite R, T, P. run.
  destruct (findLatest env (url.Get params "repo") w) as [[v [e|]] w1|w1];
    reflexivity.
Qed.

(** An error out of [findLatest] ends the request with status 400, the
    error's message, and one more on the error counter. *)
Lemma probeHandler_fetch_failed params (w w1 : World) currentVersion found e :
  url.Get params "repo" <> "" ->
  url.Get params "tag" <> "" ->
  semver.NewVersion (url.Get params "tag") = inl currentVersion ->
  findLatest env (url.Get params "repo") w = Returned (found, Some e) w1 ->
  probeHandler env params w =
  Returned (http.Error (errors.Error e) http.StatusBadRequest)
    (world_of (probeErrorsGauge_Inc w1)).
Proof.
  intros R T P F. rewrite (probeHandler_fetches _ _ _ R T P), F. reflexivity.
Qed.

End FetchFacts.

(** ** The claims *)

Section Claims.

Context {lib : semver.Lib}.
Variable env : Env.

Lemma absent_missing (params : url.Values) key :
  params !! key = None -> missing params key.
Proof. intros A. unfold missing, url.Get. rewrite A. reflexivity. Qed.

Lemma Equal_not_GreaterThan (v o : semver.Version) :
  semver.Equal v o = true -> semver.GreaterThan v o = false.
Proof.
  unfold semver.Equal, semver.GreaterThan. intros E.
  apply Z.eqb_eq in E. rewrite E. reflexivity.
Qed.

(** A probe whose fetch came back with a nil error is answered with the
    rendered registry, and the error counter stays as it was. *)
Lemma probeHandler_rendered params (w w1 : World) cur rs :
  url.Get params "repo" <> "" ->
  url.Get params "tag" <> "" ->
  semver.NewVersion (url.Get params "tag") = inl cur ->
  findReleases env (url.Get params "repo") w = Returned (rs, None) w1 ->
  exists written w2,
    probeHandler env params w = Returned written w2 /\
    http.Code written = http.StatusOK /\
    sample written "up_to_date" = Some (updateGauge w2) /\
    updateGauge w2 =
      match snd <$> returns_at rs with
      | None => 1%float
      | Some latest => boolToFloat (negb (semver.GreaterThan latest cur))
      end /\
    probeErrorsGauge w2 = probeErrorsGauge w.
Proof.
  intros R T P F. rewrite (probeHandler_fetches _ _ _ _ R T P).
  rewrite (findLatest_fetched _ _ _ _ _ F).
  pose proof (findReleases_frame env (url.Get params "repo") w) as [(_ & _ & E1) _].
  rewrite F in E1. simpl in E1.
  destruct (range_returns (url.Get params "repo") rs w1)
    as (w' & S & (_ & _ & E2) & _).
  rewrite S. unfold report. simpl.
  destruct (snd <$> returns_at rs) as [latest|]; run;
    (do 2 eexists; split; [reflexivity|]; simpl; repeat split; congruence).
Qed.

(** C2: when a latest stable version was found and the tag of the request
    parsed, the handler answers with the registry and [up_to_date] is 0
    if the latest version is strictly greater than the current one and 1
    if it is not; in particular it is 1 when the two are equal. *)
Theorem up_to_date_unless_strictly_greater params (w w1 : World) cur latest :
  url.Get params "repo" <> "" ->
  url.Get params "tag" <> "" ->
  semver.NewVersion (url.Get params "tag") = inl cur ->
  findLatest env (url.Get params "repo") w = Returned (Some latest, None) w1 ->
  exists written w2,
    probeHandler env params w = Returned written w2 /\
    http.Code written = http.StatusOK /\
    updateGauge w2 = (if semver.GreaterThan latest cur then 0 else 1)%float /\
    sample written "up_to_date" = Some (updateGauge w2) /\
    (semver.Equal latest cur = true -> updateGauge w2 = 1%float).
Proof.
  intros R T P F. rewrite (probeHandler_fetches _ _ _ _ R T P), F.
  unfold report. run. do 2 eexists. split; [reflexivity|]. simpl.
  repeat split.
  - destruct (semver.GreaterThan latest cur); reflexivity.
  - intros E. rewrite (Equal_not_GreaterThan _ _ E). reflexivity.
Qed.

(** C3: a release flagged as a draft or as a prerelease is never the one
    [findLatest] returns, wherever it stands in the fetched list: the
    iteration at which the loop returns is not its position, and the call
    behaves as the scan of the list without it. *)
Theorem flagged_release_never_latest repo (w w1 : World) rs i r :
  findReleases env repo w = Returned (rs, None) w1 ->
  rs !! i = Some r ->
  Draft r = true \/ Prerelease r = true ->
  (exists w2, findLatest env repo w = Returned (snd <$> returns_at rs, None) w2) /\
  (forall v, returns_at rs <> Some (i, v)) /\
  findLatest env repo w = findLatest_range repo (delete i rs) w1.
Proof.
  intros F L G. rewrite (findLatest_fetched _ _ _ _ _ F).
  assert (Draft r || Prerelease r = true) as G'.
  { destruct G as [-> | ->]; [reflexivity | apply orb_true_r]. }
  split; [|split].
  - destruct (range_returns repo rs w1) as (w2 & S & _). eauto.
  - apply (returns_at_skips _ _ _ L), iteration_flagged, G'.
  - apply (range_delete _ _ _ _ L). intros rest w0. apply range_flagged, G'.
Qed.

(** C4: a release whose tag parses to a version with a non-empty
    prerelease component is skipped and never returned by [findLatest],
    whatever its upstream flags: the loop does not return at its position
    and the call behaves as the scan of the list without it. *)
Theorem semver_prerelease_never_latest repo (w w1 : World) rs i r v :
  findReleases env repo w = Returned (rs, None) w1 ->
  rs !! i = Some r ->
  semver.NewVersion (TagName r) = inl v ->
  semver.Prerelease v <> "" ->
  (exists w2, findLatest env repo w = Returned (snd <$> returns_at rs, None) w2) /\
  (forall v', returns_at rs <> Some (i, v')) /\
  findLatest env repo w = findLatest_range repo (delete i rs) w1.
Proof.
  intros F L P N. rewrite (findLatest_fetched _ _ _ _ _ F).
  split; [|split].
  - destruct (range_returns repo rs w1) as (w2 & S & _). eauto.
  - apply (returns_at_skips _ _ _ L). eapply iteration_semver_prerelease; eassumption.
  - apply (range_delete _ _ _ _ L). intros rest w0.
    eapply range_semver_prerelease; eassumption.
Qed.

(** C5: for a probe with a non-empty repo and a tag that parses, when the
    fetched list is empty or holds no stable release, [findLatest]
    returns no version and a nil error, and the handler sets [up_to_date]
    to 1 and answers with the registry. *)
Theorem no_stable_release_reports_up_to_date params (w w1 : World) cur rs :
  url.Get params "repo" <> "" ->
  url.Get params "tag" <> "" ->
  semver.NewVersion (url.Get params "tag") = inl cur ->
  findReleases env (url.Get params "repo") w = Returned (rs, None) w1 ->
  (forall r, r ∈ rs -> stable r = false) ->
  (exists w2, findLatest env (url.Get params "repo") w = Returned (None, None) w2) /\
  exists written w3,
    probeHandler env params w = Returned written w3 /\
    http.Code written = http.StatusOK /\
    updateGauge w3 = 1%float /\
    sample written "up_to_date" = Some 1%float.
Proof.
  intros R T P F A.
  assert (returns_at rs = None) as N.
  { apply returns_at_none. intros r I. apply iteration_not_stable, A, I. }
  split.
  - rewrite (findLatest_fetched _ _ _ _ _ F).
    destruct (range_returns (url.Get params "repo") rs w1) as (w2 & S & _).
    rewrite N in S. eauto.
  - destruct (probeHandler_rendered _ _ _ _ _ R T P F)
      as (written & w3 & H & C & Sm & U & _).
    rewrite N in U. simpl in U. exists written, w3.
    repeat split; try assumption. rewrite Sm, U. reflexivity.
Qed.

(** C6: a release the loop reaches whose tag does not parse is logged and
    skipped, and the scan goes on with the releases after it; [findLatest]
    still returns a nil error, the probe is answered with the registry
    and the error counter is not incremented. *)
Theorem unparsable_tag_logged_and_skipped params (w w1 : World) cur
    (front : list Release) r back err :
  url.Get params "repo" <> "" ->
  url.Get params "tag" <> "" ->
  semver.NewVersion (url.Get params "tag") = inl cur ->
  findReleases env (url.Get params "repo") w = Returned ((front ++ r :: back)%list, None) w1 ->
  returns_at front = None ->
  Draft r = false -> Prerelease r = false ->
  semver.NewVersion (TagName r) = inr err ->
  let repo := url.Get params "repo" in
  (exists w2,
     findLatest_range repo front w1 = Returned (None, None) w2 /\
     findLatest env repo w =
     findLatest_range repo back (after_log w2 (parseFailure repo r err))) /\
  (exists found w3,
     findLatest env repo w = Returned (found, None) w3 /\
     parseFailure repo r err ∈ logged w3 /\
     probeErrorsGauge w3 = probeErrorsGauge w) /\
  (exists written w4,
     probeHandler env params w = Returned written w4 /\
     http.Code written = http.StatusOK /\
     probeErrorsGauge w4 = probeErrorsGauge w).
Proof.
  intros R T P F N D Pr E repo.
  assert (Draft r || Prerelease r = false) as G by (rewrite D, Pr; reflexivity).
  destruct (range_app repo front (r :: back) w1 N) as (w2 & S1 & S2).
  rewrite (range_unparsed _ _ _ _ _ G E) in S2.
  pose proof (findReleases_frame env repo w) as [(_ & _ & E1) _].
  fold repo in F. rewrite F in E1. simpl in E1.
  split; [|split].
  - exists w2. split; [exact S1|].
    rewrite (findLatest_fetched _ _ _ _ _ F). exact S2.
  - rewrite (findLatest_fetched _ _ _ _ _ F), S2.
    destruct (range_returns repo front w1) as (w2' & S1' & (_ & _ & E2) & _).
    rewrite S1, N in S1'. simpl in S1'. injection S1' as <-.
    destruct (range_returns repo back (after_log w2 (parseFailure repo r err)))
      as (w3 & S3 & (_ & _ & E3) & _ & more & L).
    exists (snd <$> returns_at back), w3. split; [exact S3|]. split.
    + rewrite L. simpl. apply elem_of_app. left. apply elem_of_app. right.
      constructor.
    + simpl in E3. congruence.
  - destruct (probeHandler_rendered _ _ _ _ _ R T P F)
      as (written & w4 & H & C & _ & _ & Er).
    exists written, w4. repeat split; assumption.
Qed.

(** C7, as the code has it: a request answered with a client error (status
    400) increments the error counter once and leaves the duration gauge
    alone; a request answered with the registry (status 200) leaves the
    counter alone and sets the duration gauge to the elapsed seconds; a
    handler that panics changes neither.  The scan of the releases, with
    its skipped tags, never touches the counter. *)
Theorem gauges_by_outcome params (w : World) :
  match probeHandler env params w with
  | Returned written w' =>
      ((exists msg, written = http.Error msg http.StatusBadRequest) /\
       probeErrorsGauge w' = (probeErrorsGauge w + 1)%float /\
       probeDurationGauge w' = probeDurationGauge w)
      \/
      (http.Code written = http.StatusOK /\
       probeErrorsGauge w' = probeErrorsGauge w /\
       probeDurationGauge w' =
         time.Seconds (time.Sub (now_end env) (now_start env)))
  | Panicked w' =>
      probeErrorsGauge w' = probeErrorsGauge w /\
      probeDurationGauge w' = probeDurationGauge w
  end /\
  forall repo rs (w0 : World),
    probeErrorsGauge (world_of (findLatest_range repo rs w0)) = probeErrorsGauge w0.
Proof.
  split.
  - destruct (String.eqb (url.Get params "repo") "") eqn:R.
    { apply String.eqb_eq in R. rewrite (probeHandler_no_repo _ _ _ R).
      left. simpl. eauto. }
    apply String.eqb_neq in R.
    destruct (String.eqb (url.Get params "tag") "") eqn:T.
    { apply String.eqb_eq in T. rewrite (probeHandler_no_tag _ _ _ R T).
      left. simpl. eauto. }
    apply String.eqb_neq in T.
    destruct (semver.NewVersion (url.Get params "tag")) as [cur|err] eqn:P.
    2:{ rewrite (probeHandler_bad_tag _ _ _ _ R T P). left. simpl. eauto. }
    rewrite (probeHandler_fetches _ _ _ _ R T P).
    pose proof (findLatest_frame env (url.Get params "repo") w) as (_ & Ed & Ee).
    destruct (findLatest env (url.Get params "repo") w) as [[v [e|]] w1|w1];
      simpl in Ed, Ee; [| |split; assumption].
    + unfold report. run. left. split; [eauto|]. split; congruence.
    + unfold report. run. destruct v; simpl; right; repeat split; assumption.
  - intros repo rs w0.
    destruct (range_returns repo rs w0) as (w' & S & (_ & _ & E) & _).
    rewrite S. exact E.
Qed.

(** C8, as the code has it: a request whose tag is non-empty but does not
    parse is answered with status 400, the error counter goes up by one,
    and no request goes out; the answer carries the parser's message when
    the repo is non-empty, and "repo parameter is missing" when it is
    not. *)
Theorem bad_tag_rejected_before_fetch params (w : World) err :
  url.Get params "tag" <> "" ->
  semver.NewVersion (url.Get params "tag") = inr err ->
  exists written w',
    probeHandler env params w = Returned written w' /\
    http.Code written = http.StatusBadRequest /\
    sent w' = sent w /\
    probeErrorsGauge w' = (probeErrorsGauge w + 1)%float /\
    (url.Get params "repo" <> "" ->
     written = http.Error (errors.Error err) http.StatusBadRequest) /\
    (url.Get params "repo" = "" ->
     written = http.Error "repo parameter is missing" http.StatusBadRequest).
Proof.
  intros T P.
  destruct (String.eqb (url.Get params "repo") "") eqn:R.
  - apply String.eqb_eq in R. rewrite (probeHandler_no_repo _ _ _ R).
    do 2 eexists. split; [reflexivity|]. repeat split.
    intros N. contradiction.
  - apply String.eqb_neq in R. rewrite (probeHandler_bad_tag _ _ _ _ R T P).
    do 2 eexists. split; [reflexivity|]. repeat split.
    intros E. contradiction.
Qed.

(** C9, as the code has it: a request without a repo is answered with
    status 400 and "repo parameter is missing", and the error counter
    goes up by one; a request with a non-empty repo and without a tag is
    answered with status 400 and "tag parameter is missing". *)
Theorem missing_parameter_rejected params (w : World) :
  (missing params "repo" ->
   exists written w',
     probeHandler env params w = Returned written w' /\
     http.Code written = http.StatusBadRequest /\
     contains (body_text written) "repo parameter is missing" = true /\
     probeErrorsGauge w' = (probeErrorsGauge w + 1)%float) /\
  (url.Get params "repo" <> "" -> missing params "tag" ->
   exists written w',
     probeHandler env params w = Returned written w' /\
     http.Code written = http.StatusBadRequest /\
     contains (body_text written) "tag parameter is missing" = true /\
     probeErrorsGauge w' = (probeErrorsGauge w + 1)%float).
Proof.
  split.
  - intros R. rewrite (probeHandler_no_repo _ _ _ R).
    do 2 eexists. split; [reflexivity|]. repeat split.
  - intros R T. rewrite (probeHandler_no_tag _ _ _ R T).
    do 2 eexists. split; [reflexivity|]. repeat split.
Qed.

End Claims.

(** ** The order of the list decides, not the order of the versions *)

Section FirstStable.

Context {lib : semver.Lib}.

Lemma iteration_some r v :
  iteration r = Some v ->
  stable r = true /\ semver.NewVersion (TagName r) = inl v.
Proof.
  intros E. assert (stable r = true) as S.
  { destruct (stable r) eqn:S; [reflexivity|].
    apply iteration_not_stable in S. congruence. }
  split; [exact S|].
  apply iteration_stable in S as (v' & E' & P). congruence.
Qed.

(** After a successful fetch, [findLatest] returns the version of the
    first stable release of the list, in the order of the list. *)
Lemma findLatest_first_stable env repo (w w1 : World) rs :
  findReleases env repo w = Returned (rs, None) w1 ->
  exists w2,
    findLatest env repo w = Returned (snd <$> returns_at rs, None) w2 /\
    forall i v, returns_at rs = Some (i, v) ->
      (exists r, rs !! i = Some r /\ stable r = true /\
                 semver.NewVersion (TagName r) = inl v) /\
      (forall j r', (j < i)%nat -> rs !! j = Some r' -> stable r' = false).
Proof.
  intros F. rewrite (findLatest_fetched _ _ _ _ _ F).
  destruct (range_returns repo rs w1) as (w2 & S & _).
  exists w2. split; [exact S|]. intros i v A.
  apply returns_at_first in A as ((r & L & E) & B). split.
  - exists r. split; [exact L|]. apply iteration_some, E.
  - intros j r' Lt L'. apply iteration_not_stable. eapply B; eassumption.
Qed.

End FirstStable.

(** ** The claims on concrete probes *)

Section Runs.

Import Sample.

(** C1, on the code: upstream answers 404.  [findReleases] returns an
    empty slice and a nil error, [findLatest] no version and a nil
    error, and the handler answers with status 200 and [up_to_date] at
    1, the error counter still at 0. *)
Theorem non200_answer_reported_up_to_date :
  findReleases (upstream 404 []) "acme/widget" fresh =
    Returned ([], None) (asked (upstream 404 [])) /\
  findLatest (upstream 404 []) "acme/widget" fresh =
    Returned (None, None) (asked (upstream 404 [])) /\
  exists w',
    probeHandler (upstream 404 []) (query "acme/widget" "v1.0.0") fresh =
      Returned
        {| http.Code := http.StatusOK;
           http.Payload := http.Exposition
             [("probe_duration_seconds", 2.5%float);
              ("probe_error_count", 0%float); ("up_to_date", 1%float)] |} w' /\
    probeErrorsGauge w' = 0%float.
Proof.
  split; [|split].
  - apply findReleases_non200 with
      (resp := {| http.StatusCode := 404; http.Body := "[...]" |});
      [reflexivity | reflexivity | discriminate].
  - reflexivity.
  - eexists. split; reflexivity.
Qed.

(** The first end-to-end scenario: v2.1.0 upstream, v2.0.0 deployed. *)
Lemma up_to_date_unless_strictly_greater_run :
  exists written w2,
    probeHandler (upstream 200 descending) (query "acme/widget" "v2.0.0") fresh =
      Returned written w2 /\
    http.Code written = http.StatusOK /\
    updateGauge w2 = 0%float /\
    sample written "up_to_date" = Some (updateGauge w2) /\
    (semver.Equal (plain 2 1 0 "v2.1.0") (plain 2 0 0 "v2.0.0") = true ->
     updateGauge w2 = 1%float).
Proof.
  apply (up_to_date_unless_strictly_greater (upstream 200 descending)
           (query "acme/widget" "v2.0.0") fresh (asked (upstream 200 descending))
           (plain 2 0 0 "v2.0.0") (plain 2 1 0 "v2.1.0")).
  - discriminate.
  - discriminate.
  - reflexivity.
  - reflexivity.
Defined.

(** A draft v9.0.0 ahead of v1.0.0 is passed over. *)
Lemma flagged_release_never_latest_run :
  (exists w2,
     findLatest (upstream 200 drafted) "acme/widget" fresh =
     Returned (snd <$> returns_at drafted, None) w2) /\
  (forall v, returns_at drafted <> Some (0%nat, v)) /\
  findLatest (upstream 200 drafted) "acme/widget" fresh =
  findLatest_range "acme/widget" (delete 0%nat drafted) (asked (upstream 200 drafted)).
Proof.
  apply (flagged_release_never_latest (upstream 200 drafted) "acme/widget"
           fresh (asked (upstream 200 drafted)) drafted 0%nat
           (release "v9.0.0" true false)).
  - reflexivity.
  - reflexivity.
  - left. reflexivity.
Defined.

(** An unflagged 2.0.0-beta.1 ahead of v1.0.0 is passed over. *)
Lemma semver_prerelease_never_latest_run :
  (exists w2,
     findLatest (upstream 200 unflagged) "acme/widget" fresh =
     Returned (snd <$> returns_at unflagged, None) w2) /\
  (forall v, returns_at unflagged <> Some (0%nat, v)) /\
  findLatest (upstream 200 unflagged) "acme/widget" fresh =
  findLatest_range "acme/widget" (delete 0%nat unflagged)
    (asked (upstream 200 unflagged)).
Proof.
  apply (semver_prerelease_never_latest (upstream 200 unflagged) "acme/widget"
           fresh (asked (upstream 200 unflagged)) unflagged 0%nat
           (release "2.0.0-beta.1" false false)
           {| Masterminds.major := 2; Masterminds.minor := 0;
              Masterminds.patch := 0; Masterminds.pre := "beta.1";
              Masterminds.metadata := "";
              Masterminds.original := "2.0.0-beta.1" |}).
  - reflexivity.
  - reflexivity.
  - reflexivity.
  - discriminate.
Defined.

(** The third end-to-end scenario: only a flagged v3.0.0-rc1 upstream. *)
Lemma no_stable_release_reports_up_to_date_run :
  (exists w2,
     findLatest (upstream 200 candidate) "acme/widget" fresh =
     Returned (None, None) w2) /\
  exists written w3,
    probeHandler (upstream 200 candidate) (query "acme/widget" "v1.0.0") fresh =
      Returned written w3 /\
    http.Code written = http.StatusOK /\
    updateGauge w3 = 1%float /\
    sample written "up_to_date" = Some 1%float.
Proof.
  apply (no_stable_release_reports_up_to_date (upstream 200 candidate)
           (query "acme/widget" "v1.0.0") fresh (asked (upstream 200 candidate))
           (plain 1 0 0 "v1.0.0") candidate).
  - discriminate.
  - discriminate.
  - reflexivity.
  - reflexivity.
  - intros r I. apply list_elem_of_singleton in I. rewrite I. reflexivity.
Defined.

(** A tag [nightly] between a draft and v1.0.0. *)
Lemma unparsable_tag_logged_and_skipped_run :
  let env := upstream 200 untidy in
  let nightly := release "nightly" false false in
  let failure := parseFailure "acme/widget" nightly Masterminds.ErrInvalidSemVer in
  (exists w2,
     findLatest_range "acme/widget" [release "v9.0.0" true false] (asked env) =
       Returned (None, None) w2 /\
     findLatest env "acme/widget" fresh =
     findLatest_range "acme/widget" [release "v1.0.0" false false]
       (after_log w2 failure)) /\
  (exists found w3,
     findLatest env "acme/widget" fresh = Returned (found, None) w3 /\
     failure ∈ logged w3 /\
     probeErrorsGauge w3 = probeErrorsGauge fresh) /\
  (exists written w4,
     probeHandler env (query "acme/widget" "v1.0.0") fresh = Returned written w4 /\
     http.Code written = http.StatusOK /\
     probeErrorsGauge w4 = probeErrorsGauge fresh).
Proof.
  apply (unparsable_tag_logged_and_skipped (upstream 200 untidy)
           (query "acme/widget" "v1.0.0") fresh (asked (upstream 200 untidy))
           (plain 1 0 0 "v1.0.0")
           [release "v9.0.0" true false] (release "nightly" false false)
           [release "v1.0.0" false false] Masterminds.ErrInvalidSemVer).
  - discriminate.
  - discriminate.
  - reflexivity.
  - reflexivity.
  - reflexivity.
  - reflexivity.
  - reflexivity.
  - reflexivity.
Defined.

(** C7, as stated, fails: a request without a repo is answered with status
    400, and the duration gauge keeps its old value 0 although the probe
    took two and a half seconds. *)
Lemma duration_gauge_untouched_on_error :
  let env := upstream 200 descending in
  exists w',
    probeHandler env ∅ fresh =
      Returned (http.Error "repo parameter is missing" http.StatusBadRequest) w' /\
    time.Seconds (time.Sub (now_end env) (now_start env)) = 2.5%float /\
    probeDurationGauge w' = 0%float /\
    probeDurationGauge w' <>
      time.Seconds (time.Sub (now_end env) (now_start env)).
Proof.
  eexists. split; [reflexivity|]. split; [reflexivity|]. split; [reflexivity|].
  intros E. apply (f_equal (fun x => PrimFloat.eqb x 0)) in E.
  vm_compute in E. discriminate.
Qed.

(** C8, as stated, fails: a request with the tag [not-a-version] and no
    repo is answered with "repo parameter is missing", not with the
    parser's message. *)
Lemma bad_tag_without_repo_blames_repo :
  let params : url.Values := {[ "tag" := ["not-a-version"] ]} in
  semver.NewVersion (url.Get params "tag") = inr Masterminds.ErrInvalidSemVer /\
  exists written w',
    probeHandler (upstream 200 descending) params fresh = Returned written w' /\
    body_text written = String.append "repo parameter is missing" (String "010" "") /\
    contains (body_text written) (errors.Error Masterminds.ErrInvalidSemVer) = false.
Proof.
  split; [reflexivity|]. do 2 eexists. split; [reflexivity|].
  split; reflexivity.
Qed.

(** [/probe?repo=acme/widget&tag=not-a-version] *)
Lemma bad_tag_rejected_before_fetch_run :
  let params := query "acme/widget" "not-a-version" in
  exists written w',
    probeHandler (upstream 200 descending) params fresh = Returned written w' /\
    http.Code written = http.StatusBadRequest /\
    sent w' = sent fresh /\
    probeErrorsGauge w' = (probeErrorsGauge fresh + 1)%float /\
    (url.Get params "repo" <> "" ->
     written = http.Error (errors.Error Masterminds.ErrInvalidSemVer)
                 http.StatusBadRequest) /\
    (url.Get params "repo" = "" ->
     written = http.Error "repo parameter is missing" http.StatusBadRequest).
Proof.
  apply (bad_tag_rejected_before_fetch (upstream 200 descending)
           (query "acme/widget" "not-a-version") fresh
           Masterminds.ErrInvalidSemVer).
  - discriminate.
  - reflexivity.
Defined.

(** C9, as stated, fails in its second half: a request with neither
    parameter misses its tag, and is answered with "repo parameter is
    missing"; "tag parameter is missing" is nowhere in the body. *)
Lemma missing_tag_without_repo_blames_repo :
  let params : url.Values := ∅ in
  params !! "tag" = None /\
  exists written w',
    probeHandler (upstream 200 descending) params fresh = Returned written w' /\
    contains (body_text written) "repo parameter is missing" = true /\
    contains (body_text written) "tag parameter is missing" = false.
Proof.
  split; [reflexivity|]. do 2 eexists. split; [reflexivity|].
  split; reflexivity.
Qed.

(** [/probe] and [/probe?repo=acme/widget] *)
Lemma missing_parameter_rejected_run :
  (exists written w',
     probeHandler (upstream 200 descending) ∅ fresh = Returned written w' /\
     http.Code written = http.StatusBadRequest /\
     contains (body_text written) "repo parameter is missing" = true /\
     probeErrorsGauge w' = (probeErrorsGauge fresh + 1)%float) /\
  (exists written w',
     probeHandler (upstream 200 descending) {[ "repo" := ["acme/widget"] ]} fresh =
       Returned written w' /\
     http.Code written = http.StatusBadRequest /\
     contains (body_text written) "tag parameter is missing" = true /\
     probeErrorsGauge w' = (probeErrorsGauge fresh + 1)%float).
Proof.
  split.
  - apply (proj1 (missing_parameter_rejected (upstream 200 descending) ∅ fresh)).
    apply absent_missing. reflexivity.
  - apply (proj2 (missing_parameter_rejected (upstream 200 descending)
                    {[ "repo" := ["acme/widget"] ]} fresh)).
    + discriminate.
    + apply absent_missing. reflexivity.
Defined.

(** C10: after a successful fetch [findLatest] returns the version of the
    first stable release in the order of the list; and there is a list,
    with v1.0.0 ahead of v2.0.0, both stable, for which it returns 1.0.0
    although 2.0.0 is strictly greater. *)
Theorem first_stable_not_maximum :
  (forall (lib : semver.Lib) env repo (w w1 : @World lib) rs,
     @findReleases lib env repo w = Returned (rs, None) w1 ->
     exists w2,
       @findLatest lib env repo w = Returned (snd <$> @returns_at lib rs, None) w2 /\
       forall i v, @returns_at lib rs = Some (i, v) ->
         (exists r, rs !! i = Some r /\ @stable lib r = true /\
                    @semver.NewVersion lib (TagName r) = inl v) /\
         (forall j r', (j < i)%nat -> rs !! j = Some r' -> @stable lib r' = false)) /\
  (exists env repo (w w1 w2 : @World Masterminds.lib) earlier later v1 v2,
     findReleases env repo w = Returned ([earlier; later], None) w1 /\
     stable earlier = true /\ semver.NewVersion (TagName earlier) = inl v1 /\
     stable later = true /\ semver.NewVersion (TagName later) = inl v2 /\
     semver.GreaterThan v2 v1 = true /\
     findLatest env repo w = Returned (Some v1, None) w2).
Proof.
  split.
  - intros lib env repo w w1 rs. apply findLatest_first_stable.
  - exists (upstream 200 ascending), "acme/widget", fresh,
      (asked (upstream 200 ascending)), (asked (upstream 200 ascending)),
      (release "v1.0.0" false false), (release "v2.0.0" false false),
      (plain 1 0 0 "v1.0.0"), (plain 2 0 0 "v2.0.0").
    repeat split; reflexivity.
Qed.

(** The list with v1.0.0 ahead of v2.0.0. *)
Lemma first_stable_not_maximum_run :
  exists w2,
    findLatest (upstream 200 ascending) "acme/widget" fresh =
      Returned (snd <$> returns_at ascending, None) w2 /\
    forall i v, returns_at ascending = Some (i, v) ->
      (exists r, ascending !! i = Some r /\ stable r = true /\
                 semver.NewVersion (TagName r) = inl v) /\
      (forall j r', (j < i)%nat -> ascending !! j = Some r' -> stable r' = false).
Proof.
  apply (proj1 first_stable_not_maximum Masterminds.lib (upstream 200 ascending)
           "acme/widget" fresh (asked (upstream 200 ascending)) ascending).
  reflexivity.
Defined.

End Runs.

(** * Further properties of the handler and the fetch *)

Section Exact.

Context {lib : semver.Lib}.

Lemma after_logs_nil (w : World) : after_logs w [] = w.
Proof. destruct w. unfold after_logs. simpl. rewrite app_nil_r. reflexivity. Qed.

Lemma after_logs_cons (w : World) e es :
  after_logs (after_log w e) es = after_logs w (e :: es).
Proof.
  unfold after_logs, after_log. simpl. rewrite <- app_assoc. reflexivity.
Qed.

(** The scan, in full: its result and the world it leaves. *)
Lemma range_exact repo rs (w : World) :
  findLatest_range repo rs w =
  Returned (snd <$> returns_at rs, None) (after_logs w (scanLog repo rs)).
Proof.
  revert w. induction rs as [|r rest IH]; intros w.
  - simpl. rewrite after_logs_nil. reflexivity.
  - destruct (Draft r || Prerelease r) eqn:F.
    + rewrite (range_flagged _ _ _ _ F), IH. simpl.
      rewrite (iteration_flagged _ F), F.
      destruct (returns_at rest) as [[i v]|]; reflexivity.
    + destruct (semver.NewVersion (TagName r)) as [v|err] eqn:P.
      * destruct (String.eqb (semver.Prerelease v) "") eqn:N.
        -- simpl. unfold iteration. rewrite F, P, N. simpl.
           rewrite after_logs_nil. reflexivity.
        -- pose proof N as N'. apply String.eqb_neq in N'.
           rewrite (range_semver_prerelease _ _ _ _ _ P N'), IH. simpl.
           rewrite (iteration_semver_prerelease _ _ P N'), F, P, N. simpl.
           destruct (returns_at rest) as [[i v']|]; reflexivity.
      * rewrite (range_unparsed _ _ _ _ _ F P), IH, after_logs_cons. simpl.
        rewrite (iteration_unparsed _ _ P), F, P.
        destruct (returns_at rest) as [[i v']|]; reflexivity.
Qed.

(** Once the scan has a release to return, what follows is not looked at. *)
Lemma returns_at_app (front back : list Release) i v :
  returns_at front = Some (i, v) -> returns_at (front ++ back) = Some (i, v).
Proof.
  revert i v. induction front as [|r rest IH]; intros i v; simpl; [discriminate|].
  destruct (iteration r); [trivial|].
  destruct (returns_at rest) as [[i0 v0]|]; [|discriminate].
  rewrite (IH i0 v0 eq_refl). trivial.
Qed.

Lemma scanLog_app repo (front back : list Release) i v :
  returns_at front = Some (i, v) ->
  scanLog repo (front ++ back) = scanLog repo front.
Proof.
  revert i v. induction front as [|r rest IH]; intros i v; simpl; [discriminate|].
  unfold iteration.
  destruct (Draft r || Prerelease r).
  - destruct (returns_at rest) as [[i0 v0]|]; [|discriminate].
    intros _. apply (IH i0 v0 eq_refl).
  - destruct (semver.NewVersion (TagName r)) as [v'|err].
    + destruct (negb (String.eqb (semver.Prerelease v') "")); [|reflexivity].
      destruct (returns_at rest) as [[i0 v0]|]; [|discriminate].
      intros _. apply (IH i0 v0 eq_refl).
    + destruct (returns_at rest) as [[i0 v0]|]; [|discriminate].
      intros _. f_equal. apply (IH i0 v0 eq_refl).
Qed.

Variable env : Env.

Lemma findReleases_answer repo (w : World) :
  parses env (releasesURL repo) = true ->
  findReleases env repo w =
  Returned (answer env repo) (after_send w (releasesRequest env repo)).
Proof. intros U. rewrite (findReleases_sent _ _ _ U). reflexivity. Qed.

(** [findLatest], in full, when its request goes out. *)
Lemma findLatest_exact repo (w : World) :
  parses env (releasesURL repo) = true ->
  findLatest env repo w =
  match snd (answer env repo) with
  | Some e => Returned (None, Some e) (after_send w (releasesRequest env repo))
  | None =>
      Returned (snd <$> returns_at (fst (answer env repo)), None)
        (after_logs (after_send w (releasesRequest env repo))
           (scanLog repo (fst (answer env repo))))
  end.
Proof.
  intros U. rewrite findLatest_unfold, (findReleases_answer _ _ U).
  destruct (answer env repo) as [rs [e|]]; simpl; [reflexivity|].
  apply range_exact.
Qed.

Lemma findLatest_nil_request repo (w : World) :
  parses env (releasesURL repo) = false ->
  findLatest env repo w = Panicked w.
Proof.
  intros U. rewrite findLatest_unfold, (findReleases_nil_request _ _ _ U).
  reflexivity.
Qed.

(** What [report] does, case by case. *)
Lemma report_error repo cur found e (w : World) :
  report env repo cur (found, Some e) w =
  Returned (http.Error (errors.Error e) http.StatusBadRequest) (after_error w).
Proof. reflexivity. Qed.

Lemma report_nothing repo cur (w : World) :
  report env repo cur (None, None) w =
  Returned (exposition (rendered_world env w 1)) (rendered_world env w 1).
Proof. reflexivity. Qed.

Lemma report_latest repo cur latest (w : World) :
  report env repo cur (Some latest, None) w =
  let w' :=
    rendered_world env (after_log w (reporting repo cur latest))
      (boolToFloat (negb (semver.GreaterThan latest cur))) in
  Returned (exposition w') w'.
Proof. reflexivity. Qed.

(** The handler, in full. *)
Lemma probeHandler_exact params (w : World) :
  probeHandler env params w = probe_outcome env params w.
Proof.
  unfold probe_outcome.
  destruct (String.eqb (url.Get params "repo") "") eqn:R.
  { apply String.eqb_eq in R. apply (probeHandler_no_repo _ _ _ R). }
  apply String.eqb_neq in R.
  destruct (String.eqb (url.Get params "tag") "") eqn:T.
  { apply String.eqb_eq in T. apply (probeHandler_no_tag _ _ _ R T). }
  apply String.eqb_neq in T.
  destruct (semver.NewVersion (url.Get params "tag")) as [cur|err] eqn:P.
  2:{ apply (probeHandler_bad_tag _ _ _ _ R T P). }
  rewrite (probeHandler_fetches _ _ _ _ R T P).
  destruct (parses env (releasesURL (url.Get params "repo"))) eqn:U.
  - rewrite (findLatest_exact _ _ U).
    destruct (snd (answer env (url.Get params "repo"))) as [e|]; [reflexivity|].
    destruct (snd <$> returns_at (fst (answer env (url.Get params "repo"))))
      as [latest|]; reflexivity.
  - rewrite (findLatest_nil_request _ _ U). reflexivity.
Qed.

End Exact.

Section Further.

Context {lib : semver.Lib}.
Variable env : Env.

Lemma neq_eqb (s t : string) : s <> t -> String.eqb s t = false.
Proof. apply String.eqb_neq. Qed.

(** The outcome of a probe whose parameters pass and whose request goes
    out. *)
Lemma probe_outcome_fetched params (w : World) cur :
  url.Get params "repo" <> "" ->
  url.Get params "tag" <> "" ->
  semver.NewVersion (url.Get params "tag") = inl cur ->
  parses env (releasesURL (url.Get params "repo")) = true ->
  probeHandler env params w =
  let repo := url.Get params "repo" in
  let w1 := after_send w (releasesRequest env repo) in
  match snd (answer env repo) with
  | Some e =>
      Returned (http.Error (errors.Error e) http.StatusBadRequest) (after_error w1)
  | None =>
      let w2 := after_logs w1 (scanLog repo (fst (answer env repo))) in
      let w3 :=
        match snd <$> returns_at (fst (answer env repo)) with
        | None => rendered_world env w2 1
        | Some version =>
            rendered_world env (after_log w2 (reporting repo cur version))
              (boolToFloat (negb (semver.GreaterThan version cur)))
        end in
      Returned (exposition w3) w3
  end.
Proof.
  intros R T P U. rewrite probeHandler_exact. unfold probe_outcome.
  rewrite (neq_eqb _ _ R), (neq_eqb _ _ T), P, U. reflexivity.
Qed.

(** The three ways a probe ends. *)
Lemma probe_cases params (w : World) :
  (exists msg w0,
     probeHandler env params w =
       Returned (http.Error msg http.StatusBadRequest) (after_error w0) /\
     same_gauges w w0) \/
  (exists w0 up,
     probeHandler env params w =
       Returned (exposition (rendered_world env w0 up)) (rendered_world env w0 up) /\
     same_gauges w w0 /\ (up = 0%float \/ up = 1%float)) \/
  probeHandler env params w = Panicked w.
Proof.
  rewrite probeHandler_exact. unfold probe_outcome.
  destruct (String.eqb (url.Get params "repo") "").
  { left. do 2 eexists. split; [reflexivity|]. repeat split. }
  destruct (String.eqb (url.Get params "tag") "").
  { left. do 2 eexists. split; [reflexivity|]. repeat split. }
  destruct (semver.NewVersion (url.Get params "tag")) as [cur|err].
  2:{ left. do 2 eexists. split; [reflexivity|]. repeat split. }
  destruct (parses env _); [|right; right; reflexivity].
  destruct (snd (answer env _)) as [e|].
  { left. do 2 eexists. split; [reflexivity|]. repeat split. }
  right. left.
  destruct (snd <$> returns_at _) as [latest|].
  - do 2 eexists. split; [reflexivity|]. split; [repeat split|].
    destruct (semver.GreaterThan latest cur); simpl; auto.
  - do 2 eexists. split; [reflexivity|]. split; [repeat split|]. auto.
Qed.

(** The answer written does not look at the world beyond its error
    counter. *)
Lemma probe_outcome_value (w w' : World) params :
  probeErrorsGauge w = probeErrorsGauge w' ->
  value_of (probe_outcome env params w) = value_of (probe_outcome env params w').
Proof.
  intros E. unfold probe_outcome.
  destruct (String.eqb (url.Get params "repo") ""); [reflexivity|].
  destruct (String.eqb (url.Get params "tag") ""); [reflexivity|].
  destruct (semver.NewVersion (url.Get params "tag")) as [cur|err]; [|reflexivity].
  destruct (parses env _); [|reflexivity].
  destruct (snd (answer env _)) as [e|]; [reflexivity|].
  destruct (snd <$> returns_at _) as [latest|]; simpl;
    unfold exposition; simpl; rewrite E; reflexivity.
Qed.

(** The entries of [scanLog]: the parse failures ahead of the return. *)
Lemma scanLog_elem repo (rs : list Release) e :
  e ∈ scanLog repo rs <->
  exists j r err,
    rs !! j = Some r /\ Draft r = false /\ Prerelease r = false /\
    semver.NewVersion (TagName r) = inr err /\
    e = parseFailure repo r err /\
    (forall i v, returns_at rs = Some (i, v) -> (j < i)%nat).
Proof.
  induction rs as [|r0 rest IH].
  - simpl. split; [intros I; inversion I | intros (j & r & err & L & _); discriminate].
  - assert (iteration r0 = None ->
              (forall err, semver.NewVersion (TagName r0) = inr err ->
                 Draft r0 || Prerelease r0 = true) ->
              (e ∈ scanLog repo rest <->
               exists j r err,
                 (r0 :: rest) !! j = Some r /\ Draft r = false /\ Prerelease r = false /\
                 semver.NewVersion (TagName r) = inr err /\
                 e = parseFailure repo r err /\
                 (forall i v, returns_at (r0 :: rest) = Some (i, v) -> (j < i)%nat)))
      as Skip.
    { intros It Fl. rewrite IH. simpl. rewrite It. split.
      - intros (j & r & err & L & D & Pr & P & Ee & B).
        exists (S j), r, err. repeat split; try assumption.
        intros i v. destruct (returns_at rest) as [[i0 v0]|]; [|discriminate].
        intros [= <- <-]. specialize (B i0 v0 eq_refl). lia.
      - intros ([|j] & r & err & L & D & Pr & P & Ee & B).
        + simpl in L. injection L as <-. specialize (Fl err P).
          rewrite D, Pr in Fl. discriminate.
        + exists j, r, err. repeat split; try assumption.
          intros i v A. rewrite A in B. specialize (B (S i) v eq_refl). lia. }
    simpl scanLog.
    destruct (Draft r0 || Prerelease r0) eqn:F.
    + apply Skip; [apply iteration_flagged, F | trivial].
    + destruct (semver.NewVersion (TagName r0)) as [v0|err0] eqn:P0.
      * destruct (String.eqb (semver.Prerelease v0) "") eqn:N; simpl.
        -- split; [intros I; inversion I|].
           intros (j & r & err & L & D & Pr & P & Ee & B).
           simpl in B. unfold iteration in B. rewrite F, P0, N in B. simpl in B.
           specialize (B 0%nat v0 eq_refl). lia.
        -- apply Skip.
           ++ apply String.eqb_neq in N.
              eapply iteration_semver_prerelease; eassumption.
           ++ intros err. discriminate.
      * rewrite elem_of_cons, IH. simpl returns_at.
        rewrite (iteration_unparsed _ _ P0).
        apply orb_false_iff in F as [D0 Pr0]. split.
        -- intros [-> | (j & r & err & L & D & Pr & P & Ee & B)].
           ++ exists 0%nat, r0, err0. repeat split; try assumption.
              intros i v. destruct (returns_at rest) as [[i0 v']|]; [|discriminate].
              intros [= <- <-]. lia.
           ++ exists (S j), r, err. repeat split; try assumption.
              intros i v. destruct (returns_at rest) as [[i0 v']|]; [|discriminate].
              intros [= <- <-]. specialize (B i0 v' eq_refl). lia.
        -- intros ([|j] & r & err & L & D & Pr & P & Ee & B).
           ++ simpl in L. injection L as <-. left. congruence.
           ++ right. exists j, r, err. repeat split; try assumption.
              intros i v A. rewrite A in B. specialize (B (S i) v eq_refl). lia.
Qed.

End Further.

(** ** The failures of the fetch, as the client sees them *)

Section FetchFailures.

Context {lib : semver.Lib}.
Variable env : Env.

(** X1: when the request to upstream fails in transport, the probe is
    answered with status 400 and the cause behind "failed to get
    repository releases: "; the error counter goes up by one, the other
    two gauges and the log stay as they were, and the one request made is
    on record. *)
Theorem transport_failure_answered_400 params (w : World) cur cause :
  url.Get params "repo" <> "" ->
  url.Get params "tag" <> "" ->
  semver.NewVersion (url.Get params "tag") = inl cur ->
  parses env (releasesURL (url.Get params "repo")) = true ->
  Do env (releasesRequest env (url.Get params "repo")) = inr cause ->
  probeHandler env params w =
  Returned
    (http.Error ("failed to get repository releases: " ++ errors.Error cause)%string
       http.StatusBadRequest)
    (after_error (after_send w (releasesRequest env (url.Get params "repo")))).
Proof.
  intros R T P U D. rewrite (probe_outcome_fetched _ _ _ _ R T P U).
  unfold answer. rewrite D. reflexivity.
Qed.

(** X2: when upstream answers 200 with a body the decoder rejects, the
    probe is answered with status 400 and the decoder's error behind
    "failed to parse the response body: ", whatever the decoder had
    already put into the slice; the error counter goes up by one and
    [up_to_date] is not touched. *)
Theorem decode_failure_answered_400 params (w : World) cur resp partial e :
  url.Get params "repo" <> "" ->
  url.Get params "tag" <> "" ->
  semver.NewVersion (url.Get params "tag") = inl cur ->
  parses env (releasesURL (url.Get params "repo")) = true ->
  Do env (releasesRequest env (url.Get params "repo")) = inl resp ->
  http.StatusCode resp = http.StatusOK ->
  Decode env (http.Body resp) = (partial, Some e) ->
  probeHandler env params w =
  Returned
    (http.Error ("failed to parse the response body: " ++ errors.Error e)%string
       http.StatusBadRequest)
    (after_error (after_send w (releasesRequest env (url.Get params "repo")))).
Proof.
  intros R T P U D S J. rewrite (probe_outcome_fetched _ _ _ _ R T P U).
  unfold answer. rewrite D, S, J. reflexivity.
Qed.

(** X3: the request [findReleases] sends is a GET of
    [https://api.github.com/repos/<repo>/releases]; it carries the header
    [Authorization: token <token>] when the token is set and no header at
    all when it is not; it is the only request of the call. *)
Theorem releases_request_shape repo (w : World) :
  parses env (releasesURL repo) = true ->
  exists result w',
    findReleases env repo w = Returned result w' /\
    sent w' =
      (sent w ++
       [{| http.Method := "GET";
           http.URL := ("https://api.github.com/repos/" ++ repo ++ "/releases")%string;
           http.Header :=
             if String.eqb (token env) "" then []
             else [("Authorization", ("token " ++ token env)%string)] |}])%list.
Proof.
  intros U. rewrite (findReleases_answer _ _ _ U). do 2 eexists.
  split; [reflexivity|]. simpl. unfold releasesRequest.
  destruct (String.eqb (token env) ""); reflexivity.
Qed.

(** X4: when [http.NewRequest] rejects the URL built from the repo, its
    error is dropped and the nil request makes the handler panic: no
    response is written, nothing is sent, and no gauge and no log entry
    changes, the error counter included. *)
Theorem rejected_url_panics params (w : World) cur :
  url.Get params "repo" <> "" ->
  url.Get params "tag" <> "" ->
  semver.NewVersion (url.Get params "tag") = inl cur ->
  parses env (releasesURL (url.Get params "repo")) = false ->
  probeHandler env params w = Panicked w.
Proof.
  intros R T P U. rewrite probeHandler_exact. unfold probe_outcome.
  rewrite (neq_eqb _ _ R), (neq_eqb _ _ T), P, U. reflexivity.
Qed.

(** X5: a probe sends exactly one request, the one for the release list
    of its repo, when both parameters are non-empty, the tag parses and
    the URL is accepted; in every other case it sends none. *)
Theorem one_request_per_valid_probe params (w : World) :
  sent (world_of (probeHandler env params w)) =
  if fetches env params
  then (sent w ++ [releasesRequest env (url.Get params "repo")])%list
  else sent w.
Proof.
  rewrite probeHandler_exact. unfold probe_outcome, fetches.
  destruct (String.eqb (url.Get params "repo") ""); [reflexivity|].
  destruct (String.eqb (url.Get params "tag") ""); [reflexivity|].
  destruct (semver.NewVersion (url.Get params "tag")) as [cur|err]; [|reflexivity].
  destruct (parses env _); [|reflexivity]. simpl.
  destruct (snd (answer env _)) as [e|]; [reflexivity|].
  destruct (snd <$> returns_at _) as [latest|]; reflexivity.
Qed.

End FetchFailures.

(** ** The gauges and the answer *)

Section Answers.

Context {lib : semver.Lib}.
Variable env : Env.

(** X6: a probe that ends in a client error leaves [up_to_date] at the
    value of the last probe that rendered; a probe that renders sets it
    to 0 or to 1 and to nothing else. *)
Theorem up_to_date_kept_or_binary params (w : World) :
  match probeHandler env params w with
  | Returned written w' =>
      (http.Code written = http.StatusBadRequest /\
       updateGauge w' = updateGauge w) \/
      (http.Code written = http.StatusOK /\
       (updateGauge w' = 0%float \/ updateGauge w' = 1%float))
  | Panicked w' => updateGauge w' = updateGauge w
  end.
Proof.
  destruct (probe_cases env params w)
    as [(msg & w0 & -> & G & _) | [(w0 & up & -> & _ & B) | ->]].
  - left. split; [reflexivity|]. exact G.
  - right. split; [reflexivity|]. exact B.
  - reflexivity.
Qed.

(** X7: every answer the handler writes is either status 400 with a
    text body, a message followed by a newline, or status 200 with
    exactly three samples, in the order of their names:
    [probe_duration_seconds], [probe_error_count] and [up_to_date], which
    are the values the three gauges have when the handler is done; a
    handler that panics leaves the state as it found it. *)
Theorem answer_is_error_or_three_gauges params (w : World) :
  match probeHandler env params w with
  | Returned written w' =>
      (exists msg,
         written =
           {| http.Code := 400;
              http.Payload := http.Text (msg ++ String "010" "")%string |}) \/
      written =
        {| http.Code := 200;
           http.Payload := http.Exposition
             [("probe_duration_seconds", probeDurationGauge w');
              ("probe_error_count", probeErrorsGauge w');
              ("up_to_date", updateGauge w')] |}
  | Panicked w' => w' = w
  end.
Proof.
  destruct (probe_cases env params w)
    as [(msg & w0 & -> & _) | [(w0 & up & -> & _) | ->]].
  - left. exists msg. reflexivity.
  - right. reflexivity.
  - reflexivity.
Qed.

(** X8: the text of a 400 answer is one of five: the two
    missing-parameter messages, the parser's message for the tag, or an
    error of the transport or of the decoder behind its prefix.  The
    message the code holds for a non-200 status is not among them. *)
Theorem error_messages params (w : World) written w' :
  probeHandler env params w = Returned written w' ->
  http.Code written = http.StatusBadRequest ->
  body_text written = ("repo parameter is missing" ++ String "010" "")%string \/
  body_text written = ("tag parameter is missing" ++ String "010" "")%string \/
  (exists err,
     semver.NewVersion (url.Get params "tag") = inr err /\
     body_text written = (errors.Error err ++ String "010" "")%string) \/
  (exists cause,
     Do env (releasesRequest env (url.Get params "repo")) = inr cause /\
     body_text written =
       ("failed to get repository releases: " ++ errors.Error cause
        ++ String "010" "")%string) \/
  (exists resp e,
     Do env (releasesRequest env (url.Get params "repo")) = inl resp /\
     snd (Decode env (http.Body resp)) = Some e /\
     body_text written =
       ("failed to parse the response body: " ++ errors.Error e
        ++ String "010" "")%string).
Proof.
  rewrite probeHandler_exact. unfold probe_outcome. intros H C.
  destruct (String.eqb (url.Get params "repo") "").
  { injection H as <- _. left. reflexivity. }
  destruct (String.eqb (url.Get params "tag") "").
  { injection H as <- _. right. left. reflexivity. }
  destruct (semver.NewVersion (url.Get params "tag")) as [cur|err].
  2:{ injection H as <- _. right. right. left. exists err. split; reflexivity. }
  destruct (parses env _); [|discriminate].
  unfold answer in H.
  destruct (Do env (releasesRequest env (url.Get params "repo")))
    as [resp|cause] eqn:D.
  - destruct (http.StatusCode resp =? http.StatusOK); simpl in H.
    + destruct (snd (Decode env (http.Body resp))) as [e|] eqn:J; simpl in H.
      * injection H as <- _. do 4 right. exists resp, e.
        split; [reflexivity|]. split; [exact J|]. reflexivity.
      * injection H as <- _.
        destruct (snd <$> returns_at _); discriminate.
    + injection H as <- _. discriminate.
  - simpl in H. injection H as <- _. do 3 right. left. exists cause.
    split; reflexivity.
Qed.

(** X9: what the handler answers depends on the state it finds only
    through the error counter: the values [up_to_date] and the duration
    had, the requests sent and the log so far make no difference. *)
Theorem answer_depends_on_error_counter_only params (w w' : World) :
  probeErrorsGauge w = probeErrorsGauge w' ->
  value_of (probeHandler env params w) = value_of (probeHandler env params w').
Proof.
  intros E. rewrite !probeHandler_exact. apply probe_outcome_value, E.
Qed.

(** X10: the error counter is carried from one request to the next: after
    a probe that ended in a client error, the next probe that renders
    shows [probe_error_count] one above what it was before the two. *)
Theorem error_count_carried_over env2 params params2 (w w1 w2 : World)
    written written2 :
  probeHandler env params w = Returned written w1 ->
  http.Code written = http.StatusBadRequest ->
  probeHandler env2 params2 w1 = Returned written2 w2 ->
  http.Code written2 = http.StatusOK ->
  sample written2 "probe_error_count" = Some (probeErrorsGauge w + 1)%float /\
  probeErrorsGauge w2 = (probeErrorsGauge w + 1)%float.
Proof.
  intros H1 C1 H2 C2.
  destruct (probe_cases env params w)
    as [(msg & w0 & E & _ & _ & G) | [(w0 & up & E & _) | E]];
    rewrite E in H1; [|injection H1 as <- _; discriminate|discriminate].
  injection H1 as _ <-.
  destruct (probe_cases env2 params2 (after_error w0))
    as [(msg' & w0' & E' & _) | [(w0' & up' & E' & (_ & _ & G') & _) | E']];
    rewrite E' in H2; [injection H2 as <- _; discriminate| |discriminate].
  injection H2 as <- <-. unfold sample. simpl in *. rewrite G', G. auto.
Qed.

(** X11: a probe that rendered can be repeated: against the same
    upstream answer and clock readings the second run writes the very
    same answer. *)
Theorem successful_probe_repeats params (w w1 : World) written :
  probeHandler env params w = Returned written w1 ->
  http.Code written = http.StatusOK ->
  exists w2, probeHandler env params w1 = Returned written w2.
Proof.
  intros H C.
  assert (probeErrorsGauge w = probeErrorsGauge w1) as E.
  { destruct (probe_cases env params w)
      as [(msg & w0 & E & _) | [(w0 & up & E & (_ & _ & G) & _) | E]];
      rewrite E in H; [injection H as <- _; discriminate| |discriminate].
    injection H as _ <-. simpl. symmetry. exact G. }
  pose proof (probe_outcome_value env w w1 params E) as V.
  rewrite <- !probeHandler_exact, H in V. simpl in V.
  destruct (probeHandler env params w1) as [written' w2|w2]; [|discriminate].
  injection V as <-. exists w2. reflexivity.
Qed.

(** X12: the entry logged before [up_to_date] is set carries
    [version.Equal(currentVersion)] under the key [up_to_date], not the
    value of the gauge: when the deployed version is ahead of the latest
    stable one the gauge is 1 and the entry says [false]. *)
Theorem reporting_entry_uses_Equal params (w w1 : World) cur latest :
  url.Get params "repo" <> "" ->
  url.Get params "tag" <> "" ->
  semver.NewVersion (url.Get params "tag") = inl cur ->
  findLatest env (url.Get params "repo") w = Returned (Some latest, None) w1 ->
  semver.Compare latest cur < 0 ->
  exists written w2,
    probeHandler env params w = Returned written w2 /\
    updateGauge w2 = 1%float /\
    logged w2 =
      (logged w1 ++
       [{| log.level := log.DebugLevel;
           log.fields :=
             [("repo", log.Str (url.Get params "repo"));
              ("current", log.Ver cur); ("latest", log.Ver latest);
              ("up_to_date", log.Flag false)];
           log.message := "reporting" |}])%list.
Proof.
  intros R T P F L. rewrite (probeHandler_fetches _ _ _ _ R T P), F.
  rewrite report_latest. do 2 eexists. split; [reflexivity|]. simpl.
  unfold reporting, semver.GreaterThan, semver.Equal.
  replace (0 <? semver.Compare latest cur) with false
    by (symmetry; apply Z.ltb_ge; lia).
  replace (semver.Compare latest cur =? 0) with false
    by (symmetry; apply Z.eqb_neq; lia).
  split; reflexivity.
Qed.

End Answers.

(** ** The scan, end to end *)

Section ScanEnds.

Context {lib : semver.Lib}.

(** X13: the scan stops at the first stable release: whatever follows a
    list that holds one is neither returned, nor parsed, nor logged. *)
Theorem scan_stops_at_first_stable repo (front back : list Release) (w : World) i v :
  returns_at front = Some (i, v) ->
  findLatest_range repo (front ++ back) w = findLatest_range repo front w /\
  findLatest_range repo front w = Returned (Some v, None) (after_logs w (scanLog repo front)).
Proof.
  intros A. rewrite !range_exact.
  rewrite (returns_at_app _ back _ _ A), (scanLog_app repo _ back _ _ A), A.
  split; reflexivity.
Qed.

(** The log of the scan, release by release. *)
Lemma scanLog_passed repo (rs : list Release) :
  scanLog repo rs = omap (M := list) (parseFailureOf repo) (take (reached rs) rs).
Proof.
  induction rs as [|r rest IH]; [reflexivity|].
  assert (iteration r = None ->
          omap (M := list) (parseFailureOf repo) (take (reached (r :: rest)) (r :: rest)) =
          match parseFailureOf repo r with
          | Some e => e :: scanLog repo rest
          | None => scanLog repo rest
          end) as Pass.
  { intros It. unfold reached. simpl returns_at. rewrite It.
    assert (forall n, omap (M := list) (parseFailureOf repo) (take (S n) (r :: rest)) =
                      match parseFailureOf repo r with
                      | Some e => e :: omap (M := list) (parseFailureOf repo) (take n rest)
                      | None => omap (M := list) (parseFailureOf repo) (take n rest)
                      end) as Step by (intros n; reflexivity).
    rewrite IH. unfold reached.
    destruct (returns_at rest) as [[i v]|]; apply Step. }
  simpl scanLog.
  destruct (Draft r || Prerelease r) eqn:F.
  - rewrite Pass by apply iteration_flagged, F.
    unfold parseFailureOf. rewrite F. reflexivity.
  - destruct (semver.NewVersion (TagName r)) as [v|err] eqn:P.
    + destruct (String.eqb (semver.Prerelease v) "") eqn:N; simpl.
      * unfold reached. simpl returns_at. unfold iteration.
        rewrite F, P, N. reflexivity.
      * apply String.eqb_neq in N.
        rewrite Pass by (eapply iteration_semver_prerelease; eassumption).
        unfold parseFailureOf. rewrite F, P. reflexivity.
    + rewrite Pass by (eapply iteration_unparsed; eassumption).
      unfold parseFailureOf. rewrite F, P. reflexivity.
Qed.

(** X14: the only trace the scan leaves is in the log: it always returns,
    with a nil error, changing no gauge and sending nothing; and what it
    adds to the log is, in the order of the list and once each, the
    parse failure of every release it passes that is not flagged and
    whose tag does not parse, and nothing else. *)
Theorem scan_logs_exactly_the_parse_failures repo (rs : list Release) (w : World) :
  findLatest_range repo rs w =
  Returned (snd <$> returns_at rs, None)
    (after_logs w (omap (parseFailureOf repo) (take (reached rs) rs))).
Proof. rewrite range_exact, scanLog_passed. reflexivity. Qed.

End ScanEnds.

(** ** The further properties on concrete probes *)

Section FurtherRuns.

Import Sample Faults.

(** X1 at an upstream that cannot be reached. *)
Lemma transport_failure_answered_400_run :
  probeHandler unreachable (query "acme/widget" "v1.0.0") fresh =
  Returned
    (http.Error
       ("failed to get repository releases: "
        ++ errors.Error (errors.New "dial tcp: i/o timeout"))%string
       http.StatusBadRequest)
    (after_error (after_send fresh (releasesRequest unreachable "acme/widget"))).
Proof.
  apply (transport_failure_answered_400 unreachable
           (query "acme/widget" "v1.0.0") fresh (plain 1 0 0 "v1.0.0")
           (errors.New "dial tcp: i/o timeout")).
  - discriminate.
  - discriminate.
  - reflexivity.
  - reflexivity.
  - reflexivity.
Defined.

(** X2 at an upstream whose body is cut short. *)
Lemma decode_failure_answered_400_run :
  probeHandler garbled (query "acme/widget" "v1.0.0") fresh =
  Returned
    (http.Error
       ("failed to parse the response body: "
        ++ errors.Error (errors.New "unexpected EOF"))%string
       http.StatusBadRequest)
    (after_error (after_send fresh (releasesRequest garbled "acme/widget"))).
Proof.
  apply (decode_failure_answered_400 garbled
           (query "acme/widget" "v1.0.0") fresh (plain 1 0 0 "v1.0.0")
           {| http.StatusCode := 200; http.Body := "[{...}," |}
           [release "v9.9.9" false false] (errors.New "unexpected EOF")).
  - discriminate.
  - discriminate.
  - reflexivity.
  - reflexivity.
  - reflexivity.
  - reflexivity.
  - reflexivity.
Defined.

(** X3 with [GITHUB_TOKEN=s3cret]. *)
Lemma releases_request_shape_run :
  exists result w',
    findReleases (authorised []) "acme/widget" fresh = Returned result w' /\
    sent w' =
      [{| http.Method := "GET";
          http.URL := "https://api.github.com/repos/acme/widget/releases";
          http.Header := [("Authorization", "token s3cret")] |}].
Proof.
  apply (releases_request_shape (authorised []) "acme/widget" fresh).
  reflexivity.
Defined.

(** X4 with a URL that [http.NewRequest] rejects. *)
Lemma rejected_url_panics_run :
  probeHandler (rejecting "s3cret") (query "acme/widget" "v1.0.0") fresh =
  Panicked fresh.
Proof.
  apply (rejected_url_panics (rejecting "s3cret")
           (query "acme/widget" "v1.0.0") fresh (plain 1 0 0 "v1.0.0")).
  - discriminate.
  - discriminate.
  - reflexivity.
  - reflexivity.
Defined.

(** X8 at an upstream that cannot be reached: the fourth message. *)
Lemma error_messages_run :
  let written :=
    http.Error "failed to get repository releases: dial tcp: i/o timeout"
      http.StatusBadRequest in
  let params := query "acme/widget" "v1.0.0" in
  body_text written = ("repo parameter is missing" ++ String "010" "")%string \/
  body_text written = ("tag parameter is missing" ++ String "010" "")%string \/
  (exists err,
     semver.NewVersion (url.Get params "tag") = inr err /\
     body_text written = (errors.Error err ++ String "010" "")%string) \/
  (exists cause,
     Do unreachable (releasesRequest unreachable (url.Get params "repo")) = inr cause /\
     body_text written =
       ("failed to get repository releases: " ++ errors.Error cause
        ++ String "010" "")%string) \/
  (exists resp e,
     Do unreachable (releasesRequest unreachable (url.Get params "repo")) = inl resp /\
     snd (Decode unreachable (http.Body resp)) = Some e /\
     body_text written =
       ("failed to parse the response body: " ++ errors.Error e
        ++ String "010" "")%string).
Proof.
  apply (error_messages unreachable (query "acme/widget" "v1.0.0") fresh
           (http.Error "failed to get repository releases: dial tcp: i/o timeout"
              http.StatusBadRequest)
           (after_error (after_send fresh (releasesRequest unreachable "acme/widget")))).
  - reflexivity.
  - reflexivity.
Defined.

(** X9: a fresh process and a used one answer alike. *)
Lemma answer_depends_on_error_counter_only_run :
  value_of (probeHandler (upstream 200 descending) (query "acme/widget" "v2.0.0") fresh) =
  value_of (probeHandler (upstream 200 descending) (query "acme/widget" "v2.0.0") used).
Proof.
  apply (answer_depends_on_error_counter_only (upstream 200 descending)
           (query "acme/widget" "v2.0.0") fresh used).
  reflexivity.
Defined.

(** X10: [/probe] without parameters, then the second end-to-end
    scenario. *)
Lemma error_count_carried_over_run :
  let env := upstream 200 descending in
  let w2 :=
    rendered_world env
      (after_log (after_send (after_error fresh) (releasesRequest env "acme/widget"))
         (reporting (lib := Masterminds.lib) "acme/widget" (plain 2 1 0 "v2.1.0") (plain 2 1 0 "v2.1.0")))
      1 in
  sample (exposition w2) "probe_error_count" = Some (probeErrorsGauge fresh + 1)%float /\
  probeErrorsGauge w2 = (probeErrorsGauge fresh + 1)%float.
Proof.
  apply (error_count_carried_over (upstream 200 descending) (upstream 200 descending)
           ∅ (query "acme/widget" "v2.1.0") fresh (after_error fresh)
           (rendered_world (upstream 200 descending)
              (after_log
                 (after_send (after_error fresh)
                    (releasesRequest (upstream 200 descending) "acme/widget"))
                 (reporting (lib := Masterminds.lib) "acme/widget" (plain 2 1 0 "v2.1.0") (plain 2 1 0 "v2.1.0")))
              1)
           (http.Error "repo parameter is missing" http.StatusBadRequest)).
  - reflexivity.
  - reflexivity.
  - reflexivity.
  - reflexivity.
Defined.

(** X11: the first end-to-end scenario, twice. *)
Lemma successful_probe_repeats_run :
  let env := upstream 200 descending in
  let w1 :=
    rendered_world env
      (after_log (asked env)
         (reporting (lib := Masterminds.lib) "acme/widget" (plain 2 0 0 "v2.0.0") (plain 2 1 0 "v2.1.0")))
      0 in
  exists w2,
    probeHandler env (query "acme/widget" "v2.0.0") w1 = Returned (exposition w1) w2.
Proof.
  apply (successful_probe_repeats (upstream 200 descending)
           (query "acme/widget" "v2.0.0") fresh).
  - reflexivity.
  - reflexivity.
Defined.

(** X12: v2.1.0 upstream, v3.0.0 deployed. *)
Lemma reporting_entry_uses_Equal_run :
  let env := upstream 200 descending in
  exists written w2,
    probeHandler env (query "acme/widget" "v3.0.0") fresh = Returned written w2 /\
    updateGauge w2 = 1%float /\
    logged w2 =
      (logged (asked env) ++
       [{| log.level := log.DebugLevel;
           log.fields :=
             [("repo", log.Str (url.Get (query "acme/widget" "v3.0.0") "repo"));
              ("current", log.Ver (plain 3 0 0 "v3.0.0"));
              ("latest", log.Ver (plain 2 1 0 "v2.1.0"));
              ("up_to_date", log.Flag false)];
           log.message := "reporting" |}])%list.
Proof.
  apply (reporting_entry_uses_Equal (upstream 200 descending)
           (query "acme/widget" "v3.0.0") fresh (asked (upstream 200 descending))
           (plain 3 0 0 "v3.0.0") (plain 2 1 0 "v2.1.0")).
  - discriminate.
  - discriminate.
  - reflexivity.
  - reflexivity.
  - reflexivity.
Defined.

(** X14 on a draft, a tag that does not parse and v1.0.0: one entry. *)
Lemma scan_logs_exactly_the_parse_failures_run :
  findLatest_range "acme/widget" untidy fresh =
  Returned (Some (plain 1 0 0 "v1.0.0"), None)
    (after_logs fresh
       [parseFailure "acme/widget" (release "nightly" false false)
          Masterminds.ErrInvalidSemVer]).
Proof.
  exact (scan_logs_exactly_the_parse_failures "acme/widget" untidy fresh).
Defined.

(** X13: a tag that does not parse, behind v2.1.0. *)
Lemma scan_stops_at_first_stable_run :
  let front := [release "v2.1.0" false false] in
  let back := [release "nightly" false false] in
  findLatest_range "acme/widget" (front ++ back) fresh =
    findLatest_range "acme/widget" front fresh /\
  findLatest_range "acme/widget" front fresh =
    Returned (Some (plain 2 1 0 "v2.1.0"), None)
      (after_logs fresh (scanLog "acme/widget" front)).
Proof.
  apply (scan_stops_at_first_stable "acme/widget"
           [release "v2.1.0" false false] [release "nightly" false false]
           fresh 0%nat (plain 2 1 0 "v2.1.0")).
  reflexivity.
Defined.

End FurtherRuns.
